(** * impedance/plotting.py: Nyquist and Bode renderers

    A shallow embedding of [FixedOrderFormatter], [plot_nyquist] and
    [plot_altair].  Floating-point numbers are idealised as real numbers;
    the matplotlib and altair objects the code builds are modelled as the
    records of the attributes the code sets. *)

From Stdlib Require Import Reals Lra List Ascii String ZArith Bool.
From stdpp Require Import base option list strings gmap.
Import ListNotations.

#[local] Set Warnings "-register-all".

Local Open Scope R_scope.
Local Open Scope string_scope.
Local Open Scope list_scope.

(** ** Python built-ins *)

Module py.

Inductive exn : Type := ValueError.

(** The outcome of a call: a value, or a raised exception. *)
Inductive result (A : Type) : Type :=
| Ok (a : A)
| Raise (e : exn).
Arguments Ok {A} a.
Arguments Raise {A} e.

#[global] Instance result_ret : MRet result := λ A a, Ok a.
#[global] Instance result_bind : MBind result := λ A B k m,
  match m with
  | Ok a => k a
  | Raise e => Raise e
  end.

Definition is_ok {A} (m : result A) : bool :=
  match m with Ok _ => true | Raise _ => false end.

(** [max(iterable)] and [min(iterable)]: [ValueError] on an empty
    sequence, otherwise the running maximum (minimum) from the left. *)
Definition max (l : list R) : result R :=
  match l with
  | [] => Raise ValueError
  | x :: tl => Ok (fold_left Rmax tl x)
  end.

Definition min (l : list R) : result R :=
  match l with
  | [] => Raise ValueError
  | x :: tl => Ok (fold_left Rmin tl x)
  end.

End py.
Import py.

(** ** numpy: complex arrays *)

Module np.

Record complex : Type := Complex { re : R; im : R }.

Abbreviation array := (list complex).

Definition real (Z : array) : list R := map re Z.
Definition imag (Z : array) : list R := map im Z.

(** Unary minus on a real array. *)
Definition neg (a : list R) : list R := map Ropp a.

(** [np.log10] on a positive number.  At zero and below, numpy gives an
    infinity or NaN, which this function on the reals does not tell: the
    statements that name a value of it take a positive argument. *)
Definition log10 (x : R) : R := ln x / ln 10.

End np.

(** ** matplotlib: the attributes of an axes that [plot_nyquist] touches *)

Module mpl.

Record Line2D : Type := {
  xdata : list R;
  ydata : list R;
  line_fmt : string;
  line_props : list (string * string)
}.

Record Text : Type := { text : string; fontsize : R }.

(** [FixedOrderFormatter]: [_order_of_mag] is the attribute of the
    subclass, the other three belong to [ScalarFormatter]. *)
Record FixedOrderFormatter : Type := {
  _order_of_mag : R;
  useOffset : bool;
  useMathText : bool;
  orderOfMagnitude : R
}.

Inductive Formatter : Type :=
| ScalarFormatter
| FixedOrder (fm : FixedOrderFormatter).

Record Axis : Type := {
  label : Text;
  major_formatter : Formatter;
  offset_text : Text;
  major_labelsize : R;
  nbins : option nat;
  tight : option bool
}.

Record Grid : Type := { grid_on : bool; grid_which : string; grid_alpha : R }.

Record Axes : Type := {
  lines : list Line2D;
  aspect : string;
  xaxis : Axis;
  yaxis : Axis;
  xgrid : option Grid;
  ygrid : option Grid
}.

(** Axes are objects: a handle names one in the store of live objects. *)
Definition handle := nat.
Abbreviation store := (gmap handle Axes).

Inductive which_axis : Type := axis_x | axis_y | axis_both.

Definition on_x (w : which_axis) : bool :=
  match w with axis_y => false | _ => true end.
Definition on_y (w : which_axis) : bool :=
  match w with axis_x => false | _ => true end.

(** *** Setters on one axis *)

Definition set_label (t : Text) (a : Axis) : Axis :=
  {| label := t; major_formatter := major_formatter a;
     offset_text := offset_text a; major_labelsize := major_labelsize a;
     nbins := nbins a; tight := tight a |}.

Definition set_major_formatter (fm : Formatter) (a : Axis) : Axis :=
  {| label := label a; major_formatter := fm;
     offset_text := offset_text a; major_labelsize := major_labelsize a;
     nbins := nbins a; tight := tight a |}.

Definition set_offset_text_size (s : R) (a : Axis) : Axis :=
  {| label := label a; major_formatter := major_formatter a;
     offset_text := {| text := text (offset_text a); fontsize := s |};
     major_labelsize := major_labelsize a;
     nbins := nbins a; tight := tight a |}.

Definition set_labelsize (s : R) (a : Axis) : Axis :=
  {| label := label a; major_formatter := major_formatter a;
     offset_text := offset_text a; major_labelsize := s;
     nbins := nbins a; tight := tight a |}.

Definition set_locator (n : nat) (t : bool) (a : Axis) : Axis :=
  {| label := label a; major_formatter := major_formatter a;
     offset_text := offset_text a; major_labelsize := major_labelsize a;
     nbins := Some n; tight := Some t |}.

(** *** Methods of [Axes], as functions on its state *)

Definition with_axis (w : which_axis) (g : Axis → Axis) (a : Axes) : Axes :=
  {| lines := lines a; aspect := aspect a;
     xaxis := if on_x w then g (xaxis a) else xaxis a;
     yaxis := if on_y w then g (yaxis a) else yaxis a;
     xgrid := xgrid a; ygrid := ygrid a |}.

(** [ax.plot(x, y, fmt, **kwargs)]: one more line on the axes. *)
Definition plot (x y : list R) (fmt : string)
    (kwargs : list (string * string)) (a : Axes) : Axes :=
  {| lines := lines a ++ [ {| xdata := x; ydata := y;
                             line_fmt := fmt; line_props := kwargs |} ];
     aspect := aspect a; xaxis := xaxis a; yaxis := yaxis a;
     xgrid := xgrid a; ygrid := ygrid a |}.

Definition set_aspect (s : string) (a : Axes) : Axes :=
  {| lines := lines a; aspect := s; xaxis := xaxis a; yaxis := yaxis a;
     xgrid := xgrid a; ygrid := ygrid a |}.

Definition set_xlabel (s : string) (size : R) : Axes → Axes :=
  with_axis axis_x (set_label {| text := s; fontsize := size |}).

Definition set_ylabel (s : string) (size : R) : Axes → Axes :=
  with_axis axis_y (set_label {| text := s; fontsize := size |}).

Definition tick_params (w : which_axis) (labelsize : R) : Axes → Axes :=
  with_axis w (set_labelsize labelsize).

Definition locator_params (w : which_axis) (n : nat) (t : bool)
  : Axes → Axes :=
  with_axis w (set_locator n t).

Definition grid (b : bool) (which : string) (w : which_axis) (alpha : R)
    (a : Axes) : Axes :=
  let g := Some {| grid_on := b; grid_which := which; grid_alpha := alpha |} in
  {| lines := lines a; aspect := aspect a; xaxis := xaxis a; yaxis := yaxis a;
     xgrid := if on_x w then g else xgrid a;
     ygrid := if on_y w then g else ygrid a |}.

(** A method call on the object behind a handle mutates it in place.  Each
    axes owns its two axis objects here: axes made to share an axis
    ([sharex], [twinx]) are not represented. *)
Definition call (ax : handle) (method : Axes → Axes) (σ : store)
  : option store :=
  a ← σ !! ax; Some (<[ax := method a]> σ).

End mpl.
Import mpl.

(** ** class FixedOrderFormatter(ScalarFormatter) *)

(** [__init__]: stores the order of magnitude, then runs the constructor of
    [ScalarFormatter], which starts [orderOfMagnitude] at 0. *)
Definition __init__ (order_of_mag : R) (useOffset useMathText : bool)
  : FixedOrderFormatter :=
  {| _order_of_mag := order_of_mag;
     mpl.useOffset := useOffset;
     mpl.useMathText := useMathText;
     orderOfMagnitude := 0 |}.

(** [FixedOrderFormatter(order_of_mag)], with the defaults of the other
    two arguments. *)
Definition FixedOrderFormatter_ (order_of_mag : R) : FixedOrderFormatter :=
  __init__ order_of_mag true true.

(** [_set_orderOfMagnitude(self, range)], the override: the visible range
    is not looked at. *)
Definition _set_orderOfMagnitude (self : FixedOrderFormatter) (range : R)
  : FixedOrderFormatter :=
  {| _order_of_mag := _order_of_mag self;
     useOffset := useOffset self;
     useMathText := useMathText self;
     orderOfMagnitude := _order_of_mag self |}.

(** The names that the class body binds (lines 10 and 15 of the source);
    any other method is the one of [ScalarFormatter]. *)
Definition FixedOrderFormatter_methods : list string :=
  ["__init__"; "_set_orderOfMagnitude"].

(** ** plot_nyquist *)

Definition xlabel_text (units : string) : string :=
  "$Z^{\prime}(\omega)$ " +:+ ("$[" +:+ units +:+ "]$").

Definition ylabel_text (units : string) : string :=
  "$-Z^{\prime\prime}(\omega)$ " +:+ ("$[" +:+ units +:+ "]$").

Definition plot_nyquist (ax : handle) (Z : np.array) (scale : R)
    (units fmt : string) (kwargs : list (string * string)) (σ : store)
  : option (handle * store) :=
  σ ← call ax (plot (np.real Z) (np.neg (np.imag Z)) fmt kwargs) σ;
  σ ← call ax (set_aspect "equal") σ;
  σ ← call ax (set_xlabel (xlabel_text units) 20) σ;
  σ ← call ax (set_ylabel (ylabel_text units) 20) σ;
  σ ← call ax (tick_params axis_both 14) σ;
  σ ← call ax (locator_params axis_x 5 true) σ;
  σ ← call ax (locator_params axis_y 5 true) σ;
  σ ← call ax (grid true "major" axis_both (5 / 10)) σ;
  σ ← call ax (with_axis axis_x (set_major_formatter
         (FixedOrder (FixedOrderFormatter_ (- np.log10 scale))))) σ;
  σ ← call ax (with_axis axis_y (set_major_formatter
         (FixedOrder (FixedOrderFormatter_ (- np.log10 scale))))) σ;
  σ ← call ax (with_axis axis_y (set_offset_text_size 18)) σ;
  σ ← call ax (with_axis axis_x (set_offset_text_size 18)) σ;
  Some (ax, σ).

(** ** pandas: the table of samples *)

Module pd.

(** One line of the table with columns f, z_real, z_imag, kind, fmt. *)
Record row : Type := {
  f : R;
  z_real : R;
  z_imag : R;
  kind : string;
  fmt : string
}.

Abbreviation DataFrame := (list row).

(** [pd.DataFrame({'f': f, 'z_real': Z.real, 'z_imag': Z.imag,
    'kind': kind, 'fmt': fmt})]: the arrays give the lines, the two scalars
    are repeated on each; arrays of different lengths are a [ValueError]. *)
Definition from_dict (f : list R) (Z : np.array) (kind fmt : string)
  : result DataFrame :=
  if Nat.eqb (length f) (length Z) then
    Ok (map (λ p, {| f := p.1; z_real := np.re p.2; z_imag := np.im p.2;
                     kind := kind; fmt := fmt |}) (combine f Z))
  else Raise ValueError.

(** [df[...].unique()] on the fmt column. *)
Definition unique_fmt (df : DataFrame) : list string :=
  remove_dups (map fmt df).

(** [df.groupby('fmt').get_group(g)]: the lines of that tag, in order. *)
Definition get_group (g : string) (df : DataFrame) : DataFrame :=
  filter (λ r, fmt r = g) df.

End pd.

(** ** Vega expressions, the language of [transform_calculate] *)

Module vega.

Inductive column : Type := col_f | col_z_real | col_z_imag.

(** The fragment the two renderers use; [Pow e n] is [pow(e, n)] with a
    numeral for exponent. *)
Inductive expr : Type :=
| Datum (c : column)
| Neg (e : expr)
| Add (e1 e2 : expr)
| Div (e1 e2 : expr)
| Pow (e : expr) (n : nat)
| Sqrt (e : expr)
| Atan (e : expr)
| Atan2 (e1 e2 : expr).

Definition column_name (c : column) : string :=
  match c with
  | col_f => "f"
  | col_z_real => "z_real"
  | col_z_imag => "z_imag"
  end.

Definition digit (n : nat) : string :=
  match n with
  | 0 => "0" | 1 => "1" | 2 => "2" | 3 => "3" | 4 => "4"
  | 5 => "5" | 6 => "6" | 7 => "7" | 8 => "8" | _ => "9"
  end%nat.

(** The concrete syntax, as the source writes it. *)
Fixpoint show (e : expr) : string :=
  match e with
  | Datum c => "datum." +:+ column_name c
  | Neg e => "-" +:+ show e
  | Add e1 e2 => show e1 +:+ " + " +:+ show e2
  | Div e1 e2 => show e1 +:+ "/" +:+ show e2
  | Pow e n => "pow(" +:+ show e +:+ "," +:+ digit n +:+ ")"
  | Sqrt e => "sqrt(" +:+ show e +:+ ")"
  | Atan e => "atan(" +:+ show e +:+ ")"
  | Atan2 e1 e2 => "atan2(" +:+ show e1 +:+ "," +:+ show e2 +:+ ")"
  end.

Definition datum (r : pd.row) (c : column) : R :=
  match c with
  | col_f => pd.f r
  | col_z_real => pd.z_real r
  | col_z_imag => pd.z_imag r
  end.

(** The two-argument arctangent: the angle of the point (x, y). *)
Definition atan2 (y x : R) : R :=
  if Rlt_dec 0 x then atan (y / x)
  else if Rlt_dec x 0 then
    (if Rle_dec 0 y then atan (y / x) + PI else atan (y / x) - PI)
  else if Rlt_dec 0 y then PI / 2
  else if Rlt_dec y 0 then - (PI / 2)
  else 0.

(** A number as Vega computes with it: a real number, one of the two
    infinities, or NaN.  The samples are real; the other three come from
    the operations, as in IEEE arithmetic (there is one zero here, and no
    overflow). *)
Inductive number : Type :=
| Finite (x : R)
| PInf
| NInf
| NaN.

(** What there is to draw: a real number, or nothing. *)
Definition real_of (a : number) : option R :=
  match a with
  | Finite x => Some x
  | _ => None
  end.

Definition n_neg (a : number) : number :=
  match a with
  | Finite x => Finite (- x)
  | PInf => NInf
  | NInf => PInf
  | NaN => NaN
  end.

Definition n_add (a b : number) : number :=
  match a, b with
  | NaN, _ | _, NaN => NaN
  | Finite x, Finite y => Finite (x + y)
  | PInf, NInf | NInf, PInf => NaN
  | PInf, _ | _, PInf => PInf
  | NInf, _ | _, NInf => NInf
  end.

(** x / 0 is an infinity of the sign of x, and 0 / 0 is NaN. *)
Definition n_div (a b : number) : number :=
  match a, b with
  | NaN, _ | _, NaN => NaN
  | Finite x, Finite y =>
      if Req_dec_T y 0 then
        if Rlt_dec 0 x then PInf
        else if Rlt_dec x 0 then NInf
        else NaN
      else Finite (x / y)
  | Finite _, _ => Finite 0
  | PInf, Finite y => if Rlt_dec y 0 then NInf else PInf
  | NInf, Finite y => if Rlt_dec y 0 then PInf else NInf
  | _, _ => NaN
  end.

(** [pow(a, n)] for a numeral n; [pow(a, 0)] is 1 for every a. *)
Definition n_pow (a : number) (n : nat) : number :=
  match n with
  | O => Finite 1
  | _ =>
      match a with
      | Finite x => Finite (x ^ n)
      | PInf => PInf
      | NInf => if Nat.even n then PInf else NInf
      | NaN => NaN
      end
  end.

Definition n_sqrt (a : number) : number :=
  match a with
  | Finite x => if Rle_dec 0 x then Finite (sqrt x) else NaN
  | PInf => PInf
  | _ => NaN
  end.

(** The arctangent of an infinity is a right angle. *)
Definition n_atan (a : number) : number :=
  match a with
  | Finite x => Finite (atan x)
  | PInf => Finite (PI / 2)
  | NInf => Finite (- (PI / 2))
  | NaN => NaN
  end.

Definition n_atan2 (y x : number) : number :=
  match y, x with
  | NaN, _ | _, NaN => NaN
  | Finite a, Finite b => Finite (atan2 a b)
  | Finite _, PInf => Finite 0
  | Finite a, NInf => if Rlt_dec a 0 then Finite (- PI) else Finite PI
  | PInf, Finite _ => Finite (PI / 2)
  | NInf, Finite _ => Finite (- (PI / 2))
  | PInf, PInf => Finite (PI / 4)
  | PInf, NInf => Finite (3 * PI / 4)
  | NInf, PInf => Finite (- (PI / 4))
  | NInf, NInf => Finite (- (3 * PI / 4))
  end.

(** The value of an expression on one line of the table. *)
Fixpoint eval (r : pd.row) (e : expr) : number :=
  match e with
  | Datum c => Finite (datum r c)
  | Neg e => n_neg (eval r e)
  | Add e1 e2 => n_add (eval r e1) (eval r e2)
  | Div e1 e2 => n_div (eval r e1) (eval r e2)
  | Pow e n => n_pow (eval r e) n
  | Sqrt e => n_sqrt (eval r e)
  | Atan e => n_atan (eval r e)
  | Atan2 e1 e2 => n_atan2 (eval r e1) (eval r e2)
  end.

(** Whether the two-argument arctangent occurs in an expression. *)
Fixpoint uses_atan2 (e : expr) : bool :=
  match e with
  | Datum _ => false
  | Neg e | Pow e _ | Sqrt e | Atan e => uses_atan2 e
  | Add e1 e2 | Div e1 e2 => uses_atan2 e1 || uses_atan2 e2
  | Atan2 _ _ => true
  end.

End vega.

(** ** altair: charts as the descriptions they build *)

Module alt.

Inductive selection_type : Type := single | interval.

(** A selection is known by its name.  The code gives none, and altair
    then makes one up from a counter of the selections built so far, which
    it keeps for the whole session: "selector" and the value of the counter.
    [name] is that value. *)
Record Selection : Type := {
  name : nat;
  sel_type : selection_type;
  on : option string;
  nearest : bool;
  empty : option string;
  fields : list string;
  bind : option string;
  encodings : list string
}.

(** [alt.selection_single(...)] and [alt.selection_interval(...)]: the
    counter goes up by one and names the new selection; they return the
    selection and the counter as it is afterwards. *)
Definition selection_single (counter : nat) (on : string) (nearest : bool)
    (empty : string) (fields : list string) : Selection * nat :=
  ({| name := S counter; sel_type := single; on := Some on;
      nearest := nearest; empty := Some empty; fields := fields;
      bind := None; encodings := [] |}, S counter).

Definition selection_interval (counter : nat) (bind : string)
    (encodings : list string) : Selection * nat :=
  ({| name := S counter; sel_type := interval; on := None; nearest := false;
      empty := None; fields := []; bind := Some bind;
      encodings := encodings |}, S counter).

Record Scale : Type := {
  scale_type : option string;
  domain : option (R * R);
  nice : option bool;
  padding : option R
}.

(** [alt.X], [alt.Y], [alt.Color] or a bare shorthand string. *)
Record Channel : Type := {
  shorthand : string;
  axis_title : option string;
  scale : option Scale;
  legend_title : option string
}.

Definition field (shorthand : string) : Channel :=
  {| shorthand := shorthand; axis_title := None; scale := None;
     legend_title := None |}.

(** [alt.condition(selection, alt.value(a), alt.value(b))]. *)
Record Condition : Type := {
  predicate : Selection;
  if_true : R;
  if_false : R
}.

Inductive Mark : Type := line | circle.

Record Chart : Type := {
  data : pd.DataFrame;
  mark : option Mark;
  x : option Channel;
  y : option Channel;
  size : option Condition;
  color : option Channel;
  selection : list Selection;
  height : option R;
  width : option R;
  calculate : list (string * vega.expr)
}.

Inductive TopLevel : Type :=
| LayerChart (layer : list Chart)
| VConcatChart (vconcat : list TopLevel)
| HConcatChart (hconcat : list TopLevel).

(** [alt.Chart(df)] *)
Definition Chart_ (df : pd.DataFrame) : Chart :=
  {| data := df; mark := None; x := None; y := None; size := None;
     color := None; selection := []; height := None; width := None;
     calculate := [] |}.

Definition set_mark (m : Mark) (c : Chart) : Chart :=
  {| data := data c; mark := Some m; x := x c; y := y c; size := size c;
     color := color c; selection := selection c; height := height c;
     width := width c; calculate := calculate c |}.

Definition mark_line : Chart → Chart := set_mark line.
Definition mark_circle : Chart → Chart := set_mark circle.

(** [.encode(x=, y=, size=, color=)]: the channels given replace those of
    the chart, the others stay. *)
Definition encode (ex ey : option Channel) (esize : option Condition)
    (ecolor : option Channel) (c : Chart) : Chart :=
  {| data := data c; mark := mark c;
     x := from_option Some (x c) ex;
     y := from_option Some (y c) ey;
     size := from_option Some (size c) esize;
     color := from_option Some (color c) ecolor;
     selection := selection c; height := height c; width := width c;
     calculate := calculate c |}.

Definition add_selection (s : Selection) (c : Chart) : Chart :=
  {| data := data c; mark := mark c; x := x c; y := y c; size := size c;
     color := color c; selection := selection c ++ [s]; height := height c;
     width := width c; calculate := calculate c |}.

Definition properties (h w : R) (c : Chart) : Chart :=
  {| data := data c; mark := mark c; x := x c; y := y c; size := size c;
     color := color c; selection := selection c; height := Some h;
     width := Some w; calculate := calculate c |}.

Definition transform_calculate (fs : list (string * vega.expr)) (c : Chart)
  : Chart :=
  {| data := data c; mark := mark c; x := x c; y := y c; size := size c;
     color := color c; selection := selection c; height := height c;
     width := width c; calculate := calculate c ++ fs |}.

(** [.interactive()]: a new interval selection bound to the scales of both
    axes, which is what pans and zooms, is added to the chart. *)
Definition interactive (counter : nat) (c : Chart) : Chart * nat :=
  let '(s, counter) := selection_interval counter "scales" ["x"; "y"] in
  (add_selection s c, counter).

(** The selection that [.interactive()] adds, under a given name. *)
Definition pan_zoom (name : nat) : Selection :=
  {| name := name; sel_type := interval; on := None; nearest := false;
     empty := None; fields := []; bind := Some "scales";
     encodings := ["x"; "y"] |}.

(** [alt.layer] on a list of charts, [a & b] and [a | b]. *)
Definition layer (charts : list Chart) : TopLevel := LayerChart charts.
Definition vconcat (a b : TopLevel) : TopLevel := VConcatChart [a; b].
Definition hconcat (a b : TopLevel) : TopLevel := HConcatChart [a; b].

(** All unit charts of a figure. *)
Fixpoint units (t : TopLevel) : list Chart :=
  match t with
  | LayerChart l => l
  | VConcatChart ts => flat_map units ts
  | HConcatChart ts => flat_map units ts
  end.

(** *** What a chart draws for a line of its data *)

(** The field of a shorthand such as [mag:Q]. *)
Fixpoint field_name (s : string) : string :=
  match s with
  | EmptyString => EmptyString
  | String c s' => if Ascii.eqb c ":"%char then EmptyString
                   else String c (field_name s')
  end.

Fixpoint calculated (name : string) (fs : list (string * vega.expr))
  : option vega.expr :=
  match fs with
  | [] => None
  | (n, e) :: fs' => if String.eqb n name then Some e else calculated name fs'
  end.

Definition column_value (name : string) (r : pd.row) : option R :=
  if String.eqb name "f" then Some (pd.f r)
  else if String.eqb name "z_real" then Some (pd.z_real r)
  else if String.eqb name "z_imag" then Some (pd.z_imag r)
  else None.

(** A calculated field when the chart has one of that name, else the
    column; [None] when there is no such field or its value is no real
    number. *)
Definition field_value (c : Chart) (name : string) (r : pd.row) : option R :=
  match calculated name (calculate c) with
  | Some e => vega.real_of (vega.eval r e)
  | None => column_value name r
  end.

Definition channel_value (c : Chart) (ch : option Channel) (r : pd.row)
  : option R :=
  ch ← ch; field_value c (field_name (shorthand ch)) r.

Definition plotted_x (c : Chart) : pd.row → option R := channel_value c (x c).
Definition plotted_y (c : Chart) : pd.row → option R := channel_value c (y c).

Definition x_domain (c : Chart) : option (R * R) :=
  ch ← x c; sc ← scale ch; domain sc.
Definition y_domain (c : Chart) : option (R * R) :=
  ch ← y c; sc ← scale ch; domain sc.

End alt.

(** ** plot_altair *)

(** One value of [data_dict]: the arrays under 'f' and 'Z', and the optional
    marker-style tag under 'fmt'. *)
Module ds.
Record dataset : Type := { f : list R; Z : np.array; fmt : option string }.
End ds.

(** [data_dict]: the datasets under their labels, in insertion order. *)
Abbreviation dict := (list (string * ds.dataset)).

Notation "c |> m" := (m c) (at level 45, left associativity, only parsing).

(** The loop that grows [Z_df], one dataset after the other; a dict holds
    one entry per key, so [data_dict[kind]] is the entry the loop is at. *)
Fixpoint append_all (items : dict) (Z_df : pd.DataFrame)
  : result pd.DataFrame :=
  match items with
  | [] => Ok Z_df
  | (kind, d) :: rest =>
      df ← pd.from_dict (ds.f d) (ds.Z d) kind (default "o" (ds.fmt d));
      append_all rest (Z_df ++ df)
  end.

Definition mag : vega.expr :=
  vega.Sqrt (vega.Add (vega.Pow (vega.Datum vega.col_z_real) 2)
                      (vega.Pow (vega.Datum vega.col_z_imag) 2)).

Definition neg_phase : vega.expr :=
  vega.Neg (vega.Atan (vega.Div (vega.Datum vega.col_z_imag)
                                (vega.Datum vega.col_z_real))).

Definition neg_z_imag : vega.expr := vega.Neg (vega.Datum vega.col_z_imag).

(** [alt.X(shorthand, axis=alt.Axis(title=t), scale=alt.Scale(...))], and
    the same for [alt.Y]. *)
Definition axis_channel (shorthand t : string) (sc : option alt.Scale)
  : alt.Channel :=
  {| alt.shorthand := shorthand; alt.axis_title := Some t;
     alt.scale := sc; alt.legend_title := None |}.

(** [alt.Scale(domain=[lo, hi], nice=False, padding=5)] *)
Definition square_scale (lo hi : R) : alt.Scale :=
  {| alt.scale_type := None; alt.domain := Some (lo, hi);
     alt.nice := Some false; alt.padding := Some 5 |}.

(** [alt.Scale(type='log', nice=False)] *)
Definition log_scale : alt.Scale :=
  {| alt.scale_type := Some "log"; alt.domain := None;
     alt.nice := Some false; alt.padding := None |}.

(** The three lists [nyquists], [bode_mags], [bode_phss]. *)
Definition panels : Type :=
  (list alt.Chart * list alt.Chart * list alt.Chart)%type.

(** The body of [if '-' in fmts]. *)
Definition line_block (Z_df : pd.DataFrame) (min_x max_x min_y max_y : R)
    (size : Z) (p : panels) : panels :=
  let '(nyquists, bode_mags, bode_phss) := p in
  let df := pd.get_group "-" Z_df in
  let nyquist :=
    alt.Chart_ df |> alt.mark_line
    |> alt.encode
         (Some (axis_channel "z_real:Q" "Z' [Ω]"
                  (Some (square_scale min_x max_x))))
         (Some (axis_channel "neg_z_imag:Q" "-Z'' [Ω]"
                  (Some (square_scale min_y max_y))))
         None
         (Some (alt.field "kind:N"))
    |> alt.properties (IZR size) (IZR size)
    |> alt.transform_calculate [("neg_z_imag", neg_z_imag)] in
  let bode :=
    alt.Chart_ df |> alt.mark_line
    |> alt.encode
         (Some (axis_channel "f:Q" "f [Hz]" (Some log_scale)))
         None None
         (Some (alt.field "kind:N"))
    |> alt.properties (IZR size / 2 - 25) (IZR size)
    |> alt.transform_calculate [("mag", mag); ("neg_phase", neg_phase)] in
  let bode_mag :=
    bode |> alt.encode None (Some (axis_channel "mag:Q" "|Z| [Ω]" None))
              None None in
  let bode_phs :=
    bode |> alt.encode None (Some (axis_channel "neg_phase:Q" "-ϕ [°]" None))
              None None in
  (nyquists ++ [nyquist], bode_mags ++ [bode_mag], bode_phss ++ [bode_phs]).

(** The body of [if 'o' in fmts]; each of its two calls of
    [.interactive()] builds a selection. *)
Definition point_block (Z_df : pd.DataFrame) (min_x max_x min_y max_y : R)
    (size : Z) (nearest : alt.Selection) (counter : nat) (p : panels)
  : panels * nat :=
  let '(nyquists, bode_mags, bode_phss) := p in
  let df := pd.get_group "o" Z_df in
  let '(nyquist, counter) :=
    alt.Chart_ df |> alt.mark_circle
    |> alt.encode
         (Some (axis_channel "z_real:Q" "Z' [Ω]"
                  (Some (square_scale min_x max_x))))
         (Some (axis_channel "neg_z_imag:Q" "-Z'' [Ω]"
                  (Some (square_scale min_y max_y))))
         (Some {| alt.predicate := nearest;
                  alt.if_true := 80; alt.if_false := 30 |})
         (Some {| alt.shorthand := "kind:N"; alt.axis_title := None;
                  alt.scale := None; alt.legend_title := Some "Legend" |})
    |> alt.add_selection nearest
    |> alt.properties (IZR size) (IZR size)
    |> alt.transform_calculate [("neg_z_imag", neg_z_imag)]
    |> alt.interactive counter in
  let '(bode, counter) :=
    alt.Chart_ df |> alt.mark_circle
    |> alt.encode
         (Some (axis_channel "f:Q" "f [Hz]" (Some log_scale)))
         None
         (Some {| alt.predicate := nearest;
                  alt.if_true := 80; alt.if_false := 30 |})
         (Some (alt.field "kind:N"))
    |> alt.add_selection nearest
    |> alt.properties (IZR size / 2 - 25) (IZR size)
    |> alt.transform_calculate [("mag", mag); ("neg_phase", neg_phase)]
    |> alt.interactive counter in
  let bode_mag :=
    bode |> alt.encode None (Some (axis_channel "mag:Q" "|Z| [Ω]" None))
              None None in
  let bode_phs :=
    bode |> alt.encode None (Some (axis_channel "neg_phase:Q" "-ϕ [°]" None))
              None None in
  ((nyquists ++ [nyquist], bode_mags ++ [bode_mag], bode_phss ++ [bode_phs]),
   counter).

Definition z_real_col (Z_df : pd.DataFrame) : list R := map pd.z_real Z_df.
Definition z_imag_col (Z_df : pd.DataFrame) : list R := map pd.z_imag Z_df.

(** [counter] is altair's counter of selections when the call starts; the
    figure comes back with the counter as the call leaves it.  An exception
    is raised before any selection is built. *)
Definition plot_altair (data_dict : dict) (size : Z) (counter : nat)
  : result (alt.TopLevel * nat) :=
  Z_df ← append_all data_dict [];
  hi ← py.max (z_real_col Z_df);
  lo ← py.min (z_real_col Z_df);
  let range_x := hi - lo in
  hi ← py.max (np.neg (z_imag_col Z_df));
  lo ← py.min (np.neg (z_imag_col Z_df));
  let range_y := hi - lo in
  let rng := Rmax range_x range_y in
  min_x ← py.min (z_real_col Z_df);
  lo ← py.min (z_real_col Z_df);
  let max_x := lo + rng in
  min_y ← py.min (np.neg (z_imag_col Z_df));
  lo ← py.min (np.neg (z_imag_col Z_df));
  let max_y := lo + rng in
  let '(nearest, counter) :=
    alt.selection_single counter "mouseover" true "none" ["f"] in
  let fmts := pd.unique_fmt Z_df in
  let p : panels := ([], [], []) in
  let p := if bool_decide ("-" ∈ fmts)
           then line_block Z_df min_x max_x min_y max_y size p else p in
  let '(p, counter) :=
    if bool_decide ("o" ∈ fmts)
    then point_block Z_df min_x max_x min_y max_y size nearest counter p
    else (p, counter) in
  let '(nyquists, bode_mags, bode_phss) := p in
  let full_bode := alt.vconcat (alt.layer bode_mags) (alt.layer bode_phss) in
  Ok (alt.hconcat full_bode (alt.layer nyquists), counter).

(** ** Derived notions used in the statements *)

(** What the statements of [plot_nyquist] make of the axes it is given. *)
Definition drawn (Z : np.array) (scale : R) (units fmt : string)
    (kwargs : list (string * string)) (a : Axes) : Axes :=
  a |> plot (np.real Z) (np.neg (np.imag Z)) fmt kwargs
    |> set_aspect "equal"
    |> set_xlabel (xlabel_text units) 20
    |> set_ylabel (ylabel_text units) 20
    |> tick_params axis_both 14
    |> locator_params axis_x 5 true
    |> locator_params axis_y 5 true
    |> grid true "major" axis_both (5 / 10)
    |> with_axis axis_x (set_major_formatter
         (FixedOrder (FixedOrderFormatter_ (- np.log10 scale))))
    |> with_axis axis_y (set_major_formatter
         (FixedOrder (FixedOrderFormatter_ (- np.log10 scale))))
    |> with_axis axis_y (set_offset_text_size 18)
    |> with_axis axis_x (set_offset_text_size 18).

(** An axes as [plt.subplots()] hands it out, before anything is drawn. *)
Definition blank_axis : Axis :=
  {| label := {| text := ""; fontsize := 10 |};
     major_formatter := ScalarFormatter;
     offset_text := {| text := ""; fontsize := 10 |};
     major_labelsize := 10; nbins := None; tight := None |}.

Definition blank_axes : Axes :=
  {| lines := []; aspect := "auto"; xaxis := blank_axis; yaxis := blank_axis;
     xgrid := None; ygrid := None |}.

(** The plotted points of a line, as pairs. *)
Definition points (l : Line2D) : list (R * R) := combine (xdata l) (ydata l).

(** The composed figure, from the three lists of sub-charts. *)
Definition figure (p : panels) : alt.TopLevel :=
  let '(nyquists, bode_mags, bode_phss) := p in
  alt.hconcat (alt.vconcat (alt.layer bode_mags) (alt.layer bode_phss))
              (alt.layer nyquists).

(** The hover selection of [plot_altair], when the call starts with the
    counter at [counter]. *)
Definition nearest (counter : nat) : alt.Selection :=
  (alt.selection_single counter "mouseover" true "none" ["f"]).1.

(** The three lists once both [if] blocks have run, and the counter
    then. *)
Definition blocks (Z_df : pd.DataFrame) (min_x max_x min_y max_y : R)
    (size : Z) (counter : nat) : panels * nat :=
  let p : panels := ([], [], []) in
  let p := if bool_decide ("-" ∈ pd.unique_fmt Z_df)
           then line_block Z_df min_x max_x min_y max_y size p else p in
  if bool_decide ("o" ∈ pd.unique_fmt Z_df)
  then point_block Z_df min_x max_x min_y max_y size (nearest counter)
         (S counter) p
  else (p, S counter).

Definition is_max (m : R) (l : list R) : Prop := m ∈ l ∧ ∀ x, x ∈ l → x <= m.
Definition is_min (m : R) (l : list R) : Prop := m ∈ l ∧ ∀ x, x ∈ l → m <= x.

(** The tag a dataset ends up with in the table. *)
Definition tag (d : ds.dataset) : string := default "o" (ds.fmt d).

(** The same datasets under other marker-style tags. *)
Definition retag (g : string → ds.dataset → option string) (d : dict)
  : dict :=
  map (λ e, (e.1, {| ds.f := ds.f e.2; ds.Z := ds.Z e.2;
                     ds.fmt := g e.1 e.2 |})) d.

(** A chart carries a hover selection: it is attached, and the marker size
    follows it. *)
Definition hovers (s : alt.Selection) (c : alt.Chart) : Prop :=
  s ∈ alt.selection c ∧
  alt.size c = Some {| alt.predicate := s;
                       alt.if_true := 80; alt.if_false := 30 |}.

(** A chart pans and zooms: it carries an interval selection bound to its
    scales. *)
Definition pans_and_zooms (c : alt.Chart) : Prop :=
  ∃ z, alt.pan_zoom z ∈ alt.selection c.

(** A chart without any interaction. *)
Definition inert (c : alt.Chart) : Prop :=
  alt.selection c = [] ∧ alt.size c = None.

(** The square range of the Nyquist panel: both domains start at the
    minimum of their dimension and span the larger of the two ranges, in
    every Nyquist sub-chart, and the line and point sub-charts are there
    when the table has lines of their tag. *)
Definition square_domain (d : dict) (size : Z) (counter : nat) : Prop :=
  ∃ rows min_x max_re min_y max_ni nyqs mags phss k,
    append_all d [] = Ok rows ∧
    is_min min_x (z_real_col rows) ∧ is_max max_re (z_real_col rows) ∧
    is_min min_y (np.neg (z_imag_col rows)) ∧
    is_max max_ni (np.neg (z_imag_col rows)) ∧
    plot_altair d size counter = Ok (figure (nyqs, mags, phss), k) ∧
    (∀ g, g = "-" ∨ g = "o" → (∃ r, r ∈ rows ∧ pd.fmt r = g) →
          ∃ c, c ∈ nyqs ∧ alt.data c = pd.get_group g rows) ∧
    ∀ c, c ∈ nyqs →
      ∃ lo_x hi_x lo_y hi_y,
        alt.x_domain c = Some (lo_x, hi_x) ∧
        alt.y_domain c = Some (lo_y, hi_y) ∧
        lo_x = min_x ∧ lo_y = min_y ∧
        hi_x - lo_x = Rmax (max_re - min_x) (max_ni - min_y) ∧
        hi_y - lo_y = Rmax (max_re - min_x) (max_ni - min_y).

(** The fields on the x and on the y channel of a chart. *)
Definition encodes (c : alt.Chart) (fx fy : string) : Prop :=
  alt.shorthand <$> alt.x c = Some fx ∧ alt.shorthand <$> alt.y c = Some fy.

(** All sub-charts of the three panels. *)
Definition sub_charts (p : panels) : list alt.Chart :=
  let '(nyquists, bode_mags, bode_phss) := p in
  nyquists ++ bode_mags ++ bode_phss.

(** The lines that one dataset brings to the table. *)
Definition samples (k : string) (e : ds.dataset) : pd.DataFrame :=
  map (λ p, {| pd.f := p.1; pd.z_real := np.re p.2; pd.z_imag := np.im p.2;
               pd.kind := k; pd.fmt := tag e |})
      (combine (ds.f e) (ds.Z e)).

(** The table in one pass over the datasets. *)
Definition table (d : dict) : pd.DataFrame :=
  flat_map (λ e, samples e.1 e.2) d.

(** A dataset has as many frequencies as impedances. *)
Definition aligned (e : ds.dataset) : Prop :=
  length (ds.f e) = length (ds.Z e).

(** All the lines drawn in one panel, sub-chart after sub-chart. *)
Definition drawn_in (l : list alt.Chart) : list pd.row := flat_map alt.data l.

(** A line whose tag selects one of the two blocks. *)
Definition recognised (r : pd.row) : Prop := pd.fmt r = "-" ∨ pd.fmt r = "o".

(** Two charts that differ at most in the order of the lines of their
    data. *)
Definition same_but_order (c c' : alt.Chart) : Prop :=
  alt.data c ≡ₚ alt.data c' ∧
  alt.mark c = alt.mark c' ∧ alt.x c = alt.x c' ∧ alt.y c = alt.y c' ∧
  alt.size c = alt.size c' ∧ alt.color c = alt.color c' ∧
  alt.selection c = alt.selection c' ∧
  alt.height c = alt.height c' ∧ alt.width c = alt.width c' ∧
  alt.calculate c = alt.calculate c'.

(** ** plot_nyquist: lemmas *)

Section Nyquist.

Context (σ : store) (ax : handle) (a : Axes) (Hax : σ !! ax = Some a).

Lemma call_live (m : Axes → Axes) : call ax m σ = Some (<[ax := m a]> σ).
Proof. unfold call. rewrite Hax. reflexivity. Qed.

Lemma call_again (b : Axes) (m : Axes → Axes) :
  call ax m (<[ax := b]> σ) = Some (<[ax := m b]> σ).
Proof.
  unfold call. rewrite lookup_insert_eq. simpl.
  rewrite insert_insert_eq. reflexivity.
Qed.

Lemma plot_nyquist_run Z scale units fmt kwargs :
  plot_nyquist ax Z scale units fmt kwargs σ
  = Some (ax, <[ax := drawn Z scale units fmt kwargs a]> σ).
Proof.
  unfold plot_nyquist. rewrite call_live. simpl.
  repeat (rewrite call_again; simpl).
  reflexivity.
Qed.

End Nyquist.

Lemma combine_real_neg_imag (Z : np.array) :
  combine (np.real Z) (np.neg (np.imag Z))
  = map (λ z, (np.re z, - np.im z)) Z.
Proof.
  unfold np.real, np.neg, np.imag.
  induction Z as [|z Z IH]; simpl; [reflexivity|].
  rewrite IH. reflexivity.
Qed.

Lemma ln_10_pos : 0 < ln 10.
Proof. rewrite <- ln_1. apply ln_increasing; lra. Qed.

Lemma Rpower_10_log10 (x : R) : 0 < x → Rpower 10 (np.log10 x) = x.
Proof.
  intros Hx. unfold Rpower, np.log10.
  replace (ln x / ln 10 * ln 10) with (ln x).
  - apply exp_ln. exact Hx.
  - pose proof ln_10_pos. field. lra.
Qed.

(** ** Python's max and min *)

Lemma fold_Rmax_ge (tl : list R) (x : R) : x <= fold_left Rmax tl x.
Proof.
  revert x. induction tl as [|y tl IH]; intros x; simpl; [lra|].
  etransitivity; [apply (Rmax_l x y)|apply IH].
Qed.

Lemma fold_Rmax_ub (tl : list R) (x y : R) :
  y ∈ x :: tl → y <= fold_left Rmax tl x.
Proof.
  revert x. induction tl as [|z tl IH]; intros x Hy; simpl.
  - apply list_elem_of_singleton in Hy. subst. lra.
  - apply elem_of_cons in Hy as [->|Hy].
    + etransitivity; [apply (Rmax_l x z)|apply fold_Rmax_ge].
    + apply elem_of_cons in Hy as [->|Hy].
      * etransitivity; [apply (Rmax_r x z)|apply fold_Rmax_ge].
      * apply IH. apply elem_of_cons. right. exact Hy.
Qed.

Lemma fold_Rmax_in (tl : list R) (x : R) : fold_left Rmax tl x ∈ x :: tl.
Proof.
  revert x. induction tl as [|z tl IH]; intros x; simpl.
  - apply elem_of_cons. left. reflexivity.
  - specialize (IH (Rmax x z)).
    apply elem_of_cons in IH as [->|IH].
    + unfold Rmax. destruct (Rle_dec x z).
      * apply elem_of_cons. right. apply elem_of_cons. left. reflexivity.
      * apply elem_of_cons. left. reflexivity.
    + apply elem_of_cons. right. apply elem_of_cons. right. exact IH.
Qed.

Lemma fold_Rmin_le (tl : list R) (x : R) : fold_left Rmin tl x <= x.
Proof.
  revert x. induction tl as [|y tl IH]; intros x; simpl; [lra|].
  etransitivity; [apply IH|apply Rmin_l].
Qed.

Lemma fold_Rmin_lb (tl : list R) (x y : R) :
  y ∈ x :: tl → fold_left Rmin tl x <= y.
Proof.
  revert x. induction tl as [|z tl IH]; intros x Hy; simpl.
  - apply list_elem_of_singleton in Hy. subst. lra.
  - apply elem_of_cons in Hy as [->|Hy].
    + etransitivity; [apply fold_Rmin_le|apply Rmin_l].
    + apply elem_of_cons in Hy as [->|Hy].
      * etransitivity; [apply fold_Rmin_le|apply Rmin_r].
      * apply IH. apply elem_of_cons. right. exact Hy.
Qed.

Lemma fold_Rmin_in (tl : list R) (x : R) : fold_left Rmin tl x ∈ x :: tl.
Proof.
  revert x. induction tl as [|z tl IH]; intros x; simpl.
  - apply elem_of_cons. left. reflexivity.
  - specialize (IH (Rmin x z)).
    apply elem_of_cons in IH as [->|IH].
    + unfold Rmin. destruct (Rle_dec x z).
      * apply elem_of_cons. left. reflexivity.
      * apply elem_of_cons. right. apply elem_of_cons. left. reflexivity.
    + apply elem_of_cons. right. apply elem_of_cons. right. exact IH.
Qed.

Lemma py_max_spec (l : list R) :
  l ≠ [] → ∃ m, py.max l = Ok m ∧ is_max m l.
Proof.
  destruct l as [|x tl]; [congruence|]. intros _.
  exists (fold_left Rmax tl x). split; [reflexivity|].
  split; [apply fold_Rmax_in|]. intros y Hy. apply fold_Rmax_ub, Hy.
Qed.

Lemma py_min_spec (l : list R) :
  l ≠ [] → ∃ m, py.min l = Ok m ∧ is_min m l.
Proof.
  destruct l as [|x tl]; [congruence|]. intros _.
  exists (fold_left Rmin tl x). split; [reflexivity|].
  split; [apply fold_Rmin_in|]. intros y Hy. apply fold_Rmin_lb, Hy.
Qed.

(** ** plot_altair: the run of the function *)

Lemma plot_altair_ok (d : dict) (size : Z) (ctr : nat)
    (rows : pd.DataFrame) :
  append_all d [] = Ok rows → rows ≠ [] →
  ∃ min_x max_re min_y max_ni,
    is_min min_x (z_real_col rows) ∧ is_max max_re (z_real_col rows) ∧
    is_min min_y (np.neg (z_imag_col rows)) ∧
    is_max max_ni (np.neg (z_imag_col rows)) ∧
    plot_altair d size ctr
    = Ok (figure (blocks rows
                    min_x (min_x + Rmax (max_re - min_x) (max_ni - min_y))
                    min_y (min_y + Rmax (max_re - min_x) (max_ni - min_y))
                    size ctr).1,
          (blocks rows
             min_x (min_x + Rmax (max_re - min_x) (max_ni - min_y))
             min_y (min_y + Rmax (max_re - min_x) (max_ni - min_y))
             size ctr).2).
Proof.
  intros Hrows Hne.
  destruct (py_min_spec (z_real_col rows)) as (min_x & Emin_x & Hmin_x).
  { destruct rows; [congruence|discriminate]. }
  destruct (py_max_spec (z_real_col rows)) as (max_re & Emax_re & Hmax_re).
  { destruct rows; [congruence|discriminate]. }
  destruct (py_min_spec (np.neg (z_imag_col rows)))
    as (min_y & Emin_y & Hmin_y).
  { destruct rows; [congruence|discriminate]. }
  destruct (py_max_spec (np.neg (z_imag_col rows)))
    as (max_ni & Emax_ni & Hmax_ni).
  { destruct rows; [congruence|discriminate]. }
  exists min_x, max_re, min_y, max_ni.
  repeat (split; [assumption|]).
  unfold plot_altair. rewrite Hrows. simpl.
  rewrite Emax_re, Emin_x. simpl. rewrite Emax_ni, Emin_y. simpl.
  unfold blocks, figure, nearest.
  repeat case_bool_decide; reflexivity.
Qed.

Lemma plot_altair_no_rows (d : dict) (size : Z) (ctr : nat) :
  append_all d [] = Ok [] → plot_altair d size ctr = Raise ValueError.
Proof. intros H. unfold plot_altair. rewrite H. reflexivity. Qed.

Lemma plot_altair_bad_table (d : dict) (size : Z) (ctr : nat) (e : exn) :
  append_all d [] = Raise e → plot_altair d size ctr = Raise e.
Proof. intros H. unfold plot_altair. rewrite H. reflexivity. Qed.

Lemma in_unique_fmt (g : string) (rows : pd.DataFrame) :
  g ∈ pd.unique_fmt rows ↔ ∃ r, r ∈ rows ∧ pd.fmt r = g.
Proof.
  unfold pd.unique_fmt. rewrite elem_of_remove_dups, list_elem_of_fmap.
  split; intros (r & H1 & H2); exists r; split; (assumption || (symmetry; assumption)).
Qed.

Lemma in_get_group (g : string) (rows : pd.DataFrame) (r : pd.row) :
  r ∈ pd.get_group g rows ↔ pd.fmt r = g ∧ r ∈ rows.
Proof. unfold pd.get_group. rewrite list_elem_of_filter. reflexivity. Qed.

(** ** plot_nyquist: properties *)

(** C2: for every complex array Z, the line that [plot_nyquist] draws has
    the real parts of Z as horizontal coordinates and the negated imaginary
    parts as vertical coordinates, element by element and in the order of
    Z: its i-th point is (Re Z[i], -Im Z[i]). *)
Theorem plot_nyquist_points (σ : store) (ax : handle) (a : Axes)
    (Z : np.array) (scale : R) (units fmt : string)
    (kwargs : list (string * string)) :
  σ !! ax = Some a →
  ∃ σ' a' l,
    plot_nyquist ax Z scale units fmt kwargs σ = Some (ax, σ') ∧
    σ' !! ax = Some a' ∧
    lines a' = lines a ++ [l] ∧
    xdata l = map np.re Z ∧
    ydata l = map (λ z, - np.im z) Z ∧
    points l = map (λ z, (np.re z, - np.im z)) Z ∧
    ∀ (i : nat) (z : np.complex),
      Z !! i = Some z → points l !! i = Some (np.re z, - np.im z).
Proof.
  intros Hax.
  exists (<[ax := drawn Z scale units fmt kwargs a]> σ),
         (drawn Z scale units fmt kwargs a),
         {| xdata := np.real Z; ydata := np.neg (np.imag Z);
            line_fmt := fmt; line_props := kwargs |}.
  split; [exact (plot_nyquist_run σ ax a Hax Z scale units fmt kwargs)|].
  split; [apply lookup_insert_eq|].
  split; [reflexivity|].
  split; [reflexivity|].
  split.
  { simpl. unfold np.neg, np.imag. rewrite map_map. reflexivity. }
  split; [apply combine_real_neg_imag|].
  intros i z Hi. unfold points. simpl.
  rewrite combine_real_neg_imag, list_lookup_fmap, Hi. reflexivity.
Qed.

Lemma plot_nyquist_points_witness :
  ∃ σ' a' l,
    plot_nyquist 0%nat [np.Complex 100 0; np.Complex 80 (-20); np.Complex 60 (-40)]
                 1 "Ohms" ".-" [] {[ 0%nat := blank_axes ]} = Some (0%nat, σ') ∧
    σ' !! 0%nat = Some a' ∧
    lines a' = lines blank_axes ++ [l] ∧
    xdata l = map np.re
                [np.Complex 100 0; np.Complex 80 (-20); np.Complex 60 (-40)] ∧
    ydata l = map (λ z, - np.im z)
                [np.Complex 100 0; np.Complex 80 (-20); np.Complex 60 (-40)] ∧
    points l = map (λ z, (np.re z, - np.im z))
                [np.Complex 100 0; np.Complex 80 (-20); np.Complex 60 (-40)] ∧
    ∀ (i : nat) (z : np.complex),
      [np.Complex 100 0; np.Complex 80 (-20); np.Complex 60 (-40)] !! i
      = Some z →
      points l !! i = Some (np.re z, - np.im z).
Proof.
  apply (plot_nyquist_points {[ 0%nat := blank_axes ]} 0%nat blank_axes).
  apply lookup_singleton_eq.
Defined.

(** The example of the documentation: 100+0j, 80-20j, 60-40j are drawn at
    (100,0), (80,20), (60,40). *)
Example nyquist_example :
  map (λ z, (np.re z, - np.im z))
      [np.Complex 100 0; np.Complex 80 (-20); np.Complex 60 (-40)]
  = [(100, 0); (80, 20); (60, 40)].
Proof. simpl. repeat f_equal; lra. Qed.

(** C5: for a positive scale, the order of magnitude that [plot_nyquist]
    stores in the formatter of the x axis and in that of the y axis is
    -log10(scale), so that the tick multiplier 10^order is 1/scale, and the
    override [_set_orderOfMagnitude], whatever range it is called with, puts
    this stored value in [orderOfMagnitude].  The override is all that pins
    the value: besides its constructor the class binds that one name, and
    not [_set_order_of_magnitude]. *)
Theorem plot_nyquist_fixed_order (σ : store) (ax : handle) (a : Axes)
    (Z : np.array) (scale : R) (units fmt : string)
    (kwargs : list (string * string)) :
  0 < scale →
  σ !! ax = Some a →
  ∃ σ' a' fx fy,
    plot_nyquist ax Z scale units fmt kwargs σ = Some (ax, σ') ∧
    σ' !! ax = Some a' ∧
    major_formatter (xaxis a') = FixedOrder fx ∧
    major_formatter (yaxis a') = FixedOrder fy ∧
    _order_of_mag fx = - np.log10 scale ∧
    _order_of_mag fy = - np.log10 scale ∧
    Rpower 10 (_order_of_mag fx) = / scale ∧
    (∀ range : R,
       orderOfMagnitude (_set_orderOfMagnitude fx range) = - np.log10 scale ∧
       orderOfMagnitude (_set_orderOfMagnitude fy range) = - np.log10 scale) ∧
    "_set_orderOfMagnitude" ∈ FixedOrderFormatter_methods ∧
    "_set_order_of_magnitude" ∉ FixedOrderFormatter_methods.
Proof.
  intros Hscale Hax.
  exists (<[ax := drawn Z scale units fmt kwargs a]> σ),
         (drawn Z scale units fmt kwargs a),
         (FixedOrderFormatter_ (- np.log10 scale)),
         (FixedOrderFormatter_ (- np.log10 scale)).
  split; [exact (plot_nyquist_run σ ax a Hax Z scale units fmt kwargs)|].
  split; [apply lookup_insert_eq|].
  do 4 (split; [reflexivity|]).
  split.
  { simpl. rewrite Rpower_Ropp, Rpower_10_log10 by exact Hscale.
    reflexivity. }
  split; [intros range; split; reflexivity|].
  unfold FixedOrderFormatter_methods. split.
  - apply list_elem_of_further, list_elem_of_here.
  - intros H. repeat (apply elem_of_cons in H as [H|H]; [discriminate H|]).
    apply elem_of_nil in H. exact H.
Qed.

Lemma plot_nyquist_fixed_order_witness :
  0 < 1 ∧ ({[ 0%nat := blank_axes ]} : store) !! 0%nat = Some blank_axes ∧
  ∃ σ' a' fx fy,
    plot_nyquist 0%nat [np.Complex 10000000 0; np.Complex 20000000 (-10000000)]
                 1 "Ohms" ".-" [] {[ 0%nat := blank_axes ]}
    = Some (0%nat, σ') ∧
    σ' !! 0%nat = Some a' ∧
    major_formatter (xaxis a') = FixedOrder fx ∧
    major_formatter (yaxis a') = FixedOrder fy ∧
    _order_of_mag fx = - np.log10 1 ∧
    _order_of_mag fy = - np.log10 1 ∧
    Rpower 10 (_order_of_mag fx) = / 1 ∧
    (∀ range : R,
       orderOfMagnitude (_set_orderOfMagnitude fx range) = - np.log10 1 ∧
       orderOfMagnitude (_set_orderOfMagnitude fy range) = - np.log10 1) ∧
    "_set_orderOfMagnitude" ∈ FixedOrderFormatter_methods ∧
    "_set_order_of_magnitude" ∉ FixedOrderFormatter_methods.
Proof.
  split; [lra|].
  split; [apply lookup_singleton_eq|].
  apply (plot_nyquist_fixed_order {[ 0%nat := blank_axes ]} 0%nat blank_axes).
  - lra.
  - apply lookup_singleton_eq.
Defined.

(** C8: [plot_nyquist] returns the handle it was given; behind it is the
    same object, now carrying the new line and the formatting; no object is
    created and no other object is changed. *)
Theorem plot_nyquist_returns_its_axes (σ : store) (ax : handle) (a : Axes)
    (Z : np.array) (scale : R) (units fmt : string)
    (kwargs : list (string * string)) :
  σ !! ax = Some a →
  ∃ σ' a',
    plot_nyquist ax Z scale units fmt kwargs σ = Some (ax, σ') ∧
    σ' !! ax = Some a' ∧
    a' = drawn Z scale units fmt kwargs a ∧
    lines a' = lines a ++ [ {| xdata := np.real Z;
                               ydata := np.neg (np.imag Z);
                               line_fmt := fmt; line_props := kwargs |} ] ∧
    aspect a' = "equal" ∧
    dom σ' = dom σ ∧
    ∀ h : handle, h ≠ ax → σ' !! h = σ !! h.
Proof.
  intros Hax.
  exists (<[ax := drawn Z scale units fmt kwargs a]> σ),
         (drawn Z scale units fmt kwargs a).
  split; [exact (plot_nyquist_run σ ax a Hax Z scale units fmt kwargs)|].
  split; [apply lookup_insert_eq|].
  do 3 (split; [reflexivity|]).
  split.
  - apply dom_insert_lookup_L. rewrite Hax. eauto.
  - intros h Hh. apply lookup_insert_ne. congruence.
Qed.

Lemma plot_nyquist_returns_its_axes_witness :
  ∃ σ' a',
    plot_nyquist 1%nat [np.Complex 100 0; np.Complex 80 (-20)] 1 "Ohms" "o" []
                 {[ 0%nat := blank_axes; 1%nat := blank_axes ]}
    = Some (1%nat, σ') ∧
    σ' !! 1%nat = Some a' ∧
    a' = drawn [np.Complex 100 0; np.Complex 80 (-20)] 1 "Ohms" "o" []
               blank_axes ∧
    lines a' = lines blank_axes
               ++ [ {| xdata := np.real [np.Complex 100 0; np.Complex 80 (-20)];
                       ydata := np.neg (np.imag
                                  [np.Complex 100 0; np.Complex 80 (-20)]);
                       line_fmt := "o"; line_props := [] |} ] ∧
    aspect a' = "equal" ∧
    dom σ' = dom ({[ 0%nat := blank_axes; 1%nat := blank_axes ]} : store) ∧
    ∀ h : handle, h ≠ 1%nat →
      σ' !! h = ({[ 0%nat := blank_axes; 1%nat := blank_axes ]} : store) !! h.
Proof.
  apply (plot_nyquist_returns_its_axes
           {[ 0%nat := blank_axes; 1%nat := blank_axes ]} 1%nat blank_axes).
  reflexivity.
Defined.

(** ** The table of samples *)

Lemma from_dict_rows (fs : list R) (Z : np.array) (k g : string)
    (df : pd.DataFrame) :
  pd.from_dict fs Z k g = Ok df →
  length df = length Z ∧ ∀ r, r ∈ df → pd.fmt r = g ∧ pd.kind r = k.
Proof.
  unfold pd.from_dict. destruct (Nat.eqb_spec (length fs) (length Z)) as [E|E];
    [|discriminate].
  intros [= <-]. split.
  - rewrite length_map, length_combine. lia.
  - intros r Hr. apply list_elem_of_fmap in Hr as (p & -> & _).
    split; reflexivity.
Qed.

Lemma from_dict_any_tag (fs : list R) (Z : np.array) (k g g' : string)
    (df : pd.DataFrame) :
  pd.from_dict fs Z k g = Ok df →
  ∃ df', pd.from_dict fs Z k g' = Ok df' ∧ length df' = length df.
Proof.
  unfold pd.from_dict. destruct (Nat.eqb (length fs) (length Z));
    [|discriminate].
  intros [= <-]. eexists. split; [reflexivity|].
  rewrite !length_map. reflexivity.
Qed.

Lemma append_all_cons (k : string) (e : ds.dataset) (rest : dict)
    (acc rows : pd.DataFrame) :
  append_all ((k, e) :: rest) acc = Ok rows →
  ∃ df, pd.from_dict (ds.f e) (ds.Z e) k (tag e) = Ok df ∧
        append_all rest (acc ++ df) = Ok rows.
Proof.
  simpl. unfold tag.
  destruct (pd.from_dict (ds.f e) (ds.Z e) k (default "o" (ds.fmt e)))
    as [df|ex]; simpl; [|discriminate].
  intros H. exists df. split; [reflexivity|exact H].
Qed.

Lemma append_all_elem (d : dict) (acc rows : pd.DataFrame) :
  append_all d acc = Ok rows →
  ∀ r, r ∈ rows ↔
       r ∈ acc ∨
       ∃ k e df, (k, e) ∈ d ∧
                 pd.from_dict (ds.f e) (ds.Z e) k (tag e) = Ok df ∧ r ∈ df.
Proof.
  revert acc. induction d as [|[k e] rest IH]; intros acc Hrows r.
  - simpl in Hrows. injection Hrows as <-. split; [auto|].
    intros [H|(k & e & df & H & _)]; [exact H|].
    apply elem_of_nil in H. contradiction.
  - apply append_all_cons in Hrows as (df & Hdf & Hrows).
    rewrite (IH _ Hrows r), elem_of_app. split.
    + intros [[H|H]|(k' & e' & df' & Hin & Hdf' & Hr)].
      * left. exact H.
      * right. exists k, e, df. split; [apply elem_of_cons; auto|auto].
      * right. exists k', e', df'.
        split; [apply elem_of_cons; auto|auto].
    + intros [H|(k' & e' & df' & Hin & Hdf' & Hr)]; [auto|].
      apply elem_of_cons in Hin as [[= -> ->]|Hin].
      * left. right. congruence.
      * right. exists k', e', df'. auto.
Qed.

Lemma append_all_each (d : dict) (acc rows : pd.DataFrame) (k : string)
    (e : ds.dataset) :
  append_all d acc = Ok rows → (k, e) ∈ d →
  ∃ df, pd.from_dict (ds.f e) (ds.Z e) k (tag e) = Ok df.
Proof.
  revert acc. induction d as [|[k' e'] rest IH]; intros acc Hrows Hin.
  - apply elem_of_nil in Hin. contradiction.
  - apply append_all_cons in Hrows as (df & Hdf & Hrows).
    apply elem_of_cons in Hin as [[= -> ->]|Hin]; [eauto|].
    apply (IH _ Hrows Hin).
Qed.

Lemma append_all_tags (d : dict) (rows : pd.DataFrame) (g : string) :
  append_all d [] = Ok rows →
  Forall (λ e, tag e.2 = g) d →
  ∀ r, r ∈ rows → pd.fmt r = g.
Proof.
  intros Hrows Hall r Hr.
  apply (append_all_elem _ _ _ Hrows) in Hr as [Hr|(k & e & df & Hin & Hdf & Hr)].
  - apply elem_of_nil in Hr. contradiction.
  - rewrite Forall_forall in Hall. specialize (Hall _ Hin). simpl in Hall.
    apply from_dict_rows in Hdf as [_ Hdf].
    destruct (Hdf r Hr) as [-> _]. exact Hall.
Qed.

Lemma append_all_retag (g : string → ds.dataset → option string) (d : dict)
    (acc acc' rows : pd.DataFrame) :
  append_all d acc = Ok rows → length acc' = length acc →
  ∃ rows', append_all (retag g d) acc' = Ok rows' ∧
           length rows' = length rows.
Proof.
  revert acc acc'. induction d as [|[k e] rest IH]; intros acc acc' Hrows Hlen.
  - simpl in *. injection Hrows as <-. eauto.
  - apply append_all_cons in Hrows as (df & Hdf & Hrows).
    apply (from_dict_any_tag _ _ _ _ (default "o" (g k e))) in Hdf
      as (df' & Hdf' & Hlen').
    destruct (IH (acc ++ df) (acc' ++ df') Hrows) as (rows' & Hrows' & Hl).
    { rewrite !length_app. lia. }
    exists rows'. split; [|exact Hl].
    simpl. rewrite Hdf'. simpl. exact Hrows'.
Qed.

(** ** plot_altair: properties *)

(** Both [if] blocks, case by case. *)
Ltac by_blocks :=
  unfold blocks, line_block, point_block; repeat case_bool_decide; simpl.

(** A chart taken from an explicit list of charts. *)
Ltac each_chart H :=
  repeat (apply elem_of_cons in H as [->|H]);
  try (apply elem_of_nil in H; contradiction).

(** C9: the figure that [plot_altair] returns is the horizontal
    concatenation of, on the left, the vertical concatenation of the layered
    magnitude Bode sub-charts above the layered phase Bode sub-charts and,
    on the right, the layered Nyquist sub-charts. *)
Theorem plot_altair_layout (d : dict) (size : Z) (ctr : nat)
    (rows : pd.DataFrame) :
  append_all d [] = Ok rows → rows ≠ [] →
  ∃ nyquists bode_mags bode_phss k,
    plot_altair d size ctr
    = Ok (alt.HConcatChart
            [alt.VConcatChart [alt.LayerChart bode_mags;
                               alt.LayerChart bode_phss];
             alt.LayerChart nyquists], k) ∧
    (∀ c, c ∈ bode_mags → encodes c "f:Q" "mag:Q") ∧
    (∀ c, c ∈ bode_phss → encodes c "f:Q" "neg_phase:Q") ∧
    (∀ c, c ∈ nyquists → encodes c "z_real:Q" "neg_z_imag:Q") ∧
    ((∃ r, r ∈ rows ∧ (pd.fmt r = "-" ∨ pd.fmt r = "o")) →
     nyquists ≠ [] ∧ bode_mags ≠ [] ∧ bode_phss ≠ []).
Proof.
  intros Hrows Hne.
  destruct (plot_altair_ok d size ctr rows Hrows Hne)
    as (min_x & max_re & min_y & max_ni & _ & _ & _ & _ & Hrun).
  destruct (blocks rows min_x _ min_y _ size ctr)
    as [[[nyqs mags] phss] k] eqn:Hb.
  exists nyqs, mags, phss, k. split; [exact Hrun|].
  revert Hb. by_blocks; intros [= <- <- <- <-];
    (split; [intros c Hc; each_chart Hc; split; reflexivity|]);
    (split; [intros c Hc; each_chart Hc; split; reflexivity|]);
    (split; [intros c Hc; each_chart Hc; split; reflexivity|]);
    try (intros _; repeat split; discriminate).
  intros (r & Hr & [Hf|Hf]);
    match goal with
    | H : ¬ _ ∈ pd.unique_fmt _ |- _ =>
        exfalso; apply H; apply in_unique_fmt; solve [eauto]
    end.
Qed.

(** A tag that occurs in the table is among [fmts]. *)
Ltac absent_tag :=
  match goal with
  | H : ¬ _ ∈ pd.unique_fmt _ |- _ =>
      exfalso; apply H; apply in_unique_fmt; solve [eauto]
  end.

(** C1, as amended: for every dataset collection whose table of samples has
    at least one line, both domains of the Nyquist panel start at the
    minimum of their dimension (real part; negated imaginary part) and have
    the same span, the larger of the range of the real parts and the range
    of the negated imaginary parts over all lines of the table; the line and
    the point Nyquist sub-charts both carry this pair of domains. *)
Theorem plot_altair_square_domain (d : dict) (size : Z) (ctr : nat)
    (rows : pd.DataFrame) :
  append_all d [] = Ok rows → rows ≠ [] → square_domain d size ctr.
Proof.
  intros Hrows Hne.
  destruct (plot_altair_ok d size ctr rows Hrows Hne)
    as (min_x & max_re & min_y & max_ni & Hmin_x & Hmax_re & Hmin_y
        & Hmax_ni & Hrun).
  destruct (blocks rows min_x _ min_y _ size ctr)
    as [[[nyqs mags] phss] k] eqn:Hb.
  exists rows, min_x, max_re, min_y, max_ni, nyqs, mags, phss, k.
  do 5 (split; [assumption|]). split; [exact Hrun|].
  revert Hb. by_blocks; intros [= <- <- <- <-]; split.
  all: try (intros c Hc; each_chart Hc;
            eexists _, _, _, _; repeat (split; [reflexivity|]);
            split; ring).
  all: intros g [-> | ->] (r & Hr & Hf); try absent_tag.
  all: first
    [ eexists; split; [apply list_elem_of_here|reflexivity]
    | eexists; split;
      [apply list_elem_of_further, list_elem_of_here|reflexivity] ].
Qed.

Lemma plot_altair_square_domain_witness :
  square_domain
    [("data", {| ds.f := [1; 10];
                 ds.Z := [np.Complex 100 0; np.Complex 80 (-20)];
                 ds.fmt := Some "o" |})] 400 0%nat.
Proof.
  eapply plot_altair_square_domain.
  - reflexivity.
  - discriminate.
Defined.

(** C1, as first stated, fails: a collection that is not empty but whose
    only dataset has no sample makes [max] raise, and no chart is
    returned. *)
Lemma plot_altair_square_domain_needs_a_sample :
  [("fit", {| ds.f := []; ds.Z := []; ds.fmt := Some "-" |})] ≠ [] ∧
  plot_altair [("fit", {| ds.f := []; ds.Z := []; ds.fmt := Some "-" |})] 400
              0%nat
  = Raise ValueError ∧
  ∀ counter,
    ¬ square_domain
        [("fit", {| ds.f := []; ds.Z := []; ds.fmt := Some "-" |})] 400
        counter.
Proof.
  split; [discriminate|]. split; [reflexivity|].
  intros counter
         (rows & min_x & max_re & min_y & max_ni & nyqs & mags & phss & k
          & _ & _ & _ & _ & _ & Hrun & _).
  discriminate Hrun.
Qed.

(** The two calculated fields of the Bode charts, as the source spells
    them. *)
Lemma show_mag :
  vega.show mag = "sqrt(pow(datum.z_real,2) + pow(datum.z_imag,2))".
Proof. reflexivity. Qed.

Lemma show_neg_phase :
  vega.show neg_phase = "-atan(datum.z_imag/datum.z_real)".
Proof. reflexivity. Qed.

Lemma show_neg_z_imag : vega.show neg_z_imag = "-datum.z_imag".
Proof. reflexivity. Qed.

Lemma eval_mag (r : pd.row) :
  vega.eval r mag = vega.Finite (sqrt (pd.z_real r ^ 2 + pd.z_imag r ^ 2)).
Proof.
  unfold mag.
  cbn [vega.eval vega.datum vega.n_pow vega.n_add vega.n_sqrt].
  destruct (Rle_dec 0 (pd.z_real r ^ 2 + pd.z_imag r ^ 2)) as [_|Hneg];
    [reflexivity|].
  exfalso. apply Hneg.
  pose proof (pow2_ge_0 (pd.z_real r)). pose proof (pow2_ge_0 (pd.z_imag r)).
  lra.
Qed.

Lemma drawn_mag (r : pd.row) :
  vega.real_of (vega.eval r mag)
  = Some (sqrt (pd.z_real r ^ 2 + pd.z_imag r ^ 2)).
Proof. rewrite eval_mag. reflexivity. Qed.

Lemma mag_is_modulus (r : pd.row) (v : R) :
  vega.real_of (vega.eval r mag) = Some v →
  0 <= v ∧ v * v = pd.z_real r * pd.z_real r + pd.z_imag r * pd.z_imag r.
Proof.
  rewrite drawn_mag. intros [= <-]. split; [apply sqrt_pos|].
  rewrite sqrt_sqrt; [ring|].
  pose proof (pow2_ge_0 (pd.z_real r)). pose proof (pow2_ge_0 (pd.z_imag r)).
  lra.
Qed.

Lemma eval_neg_phase (r : pd.row) :
  pd.z_real r ≠ 0 →
  vega.eval r neg_phase = vega.Finite (- atan (pd.z_imag r / pd.z_real r)).
Proof.
  intros Hre. unfold neg_phase.
  cbn [vega.eval vega.datum vega.n_div vega.n_atan vega.n_neg].
  destruct (Req_dec_T (pd.z_real r) 0) as [E|_]; [contradiction|].
  reflexivity.
Qed.

(** On the imaginary axis the quotient is an infinity, and its arctangent a
    right angle; at the origin the quotient is NaN. *)
Lemma eval_neg_phase_axis (r : pd.row) :
  pd.z_real r = 0 →
  vega.eval r neg_phase
  = if Rlt_dec 0 (pd.z_imag r) then vega.Finite (- (PI / 2))
    else if Rlt_dec (pd.z_imag r) 0 then vega.Finite (- - (PI / 2))
    else vega.NaN.
Proof.
  intros Hre. unfold neg_phase.
  cbn [vega.eval vega.datum vega.n_div vega.n_atan vega.n_neg].
  destruct (Req_dec_T (pd.z_real r) 0) as [_|E]; [|contradiction].
  destruct (Rlt_dec 0 (pd.z_imag r)); [reflexivity|].
  destruct (Rlt_dec (pd.z_imag r) 0); reflexivity.
Qed.

Lemma drawn_neg_phase (r : pd.row) :
  pd.z_real r ≠ 0 →
  vega.real_of (vega.eval r neg_phase)
  = Some (- atan (pd.z_imag r / pd.z_real r)).
Proof. intros Hre. rewrite (eval_neg_phase r Hre). reflexivity. Qed.

(** On the left half plane the one-argument formula is not the angle that
    the two-argument arctangent gives. *)
Lemma neg_phase_no_quadrant (r : pd.row) :
  pd.z_real r < 0 →
  vega.real_of (vega.eval r neg_phase)
  ≠ Some (- vega.atan2 (pd.z_imag r) (pd.z_real r)).
Proof.
  intros Hre. rewrite drawn_neg_phase by lra. unfold vega.atan2.
  pose proof PI_RGT_0. intros [= Hv]. revert Hv.
  destruct (Rlt_dec 0 (pd.z_real r)); [lra|].
  destruct (Rlt_dec (pd.z_real r) 0); [|lra].
  destruct (Rle_dec 0 (pd.z_imag r)); lra.
Qed.

(** A sample and its opposite get the same phase. *)
Lemma neg_phase_opposite (r r' : pd.row) :
  pd.z_real r' = - pd.z_real r → pd.z_imag r' = - pd.z_imag r →
  pd.z_real r ≠ 0 →
  vega.eval r' neg_phase = vega.eval r neg_phase.
Proof.
  intros Hre Him Hnz.
  rewrite (eval_neg_phase r) by exact Hnz.
  rewrite (eval_neg_phase r') by (rewrite Hre; lra).
  rewrite Hre, Him. do 3 f_equal. field. exact Hnz.
Qed.

(** A line of a recognised tag is in the data of the sub-chart of its
    tag. *)
Ltac in_its_group :=
  first
    [ eexists; split;
      [apply list_elem_of_here|apply in_get_group; split; assumption]
    | eexists; split;
      [apply list_elem_of_further, list_elem_of_here
      |apply in_get_group; split; assumption] ].

(** C4: in every sub-chart of the magnitude Bode panel, line or point, the
    value drawn for a sample is sqrt(real^2 + imag^2) of that sample; every
    sample of a line or point dataset is drawn in that panel. *)
Theorem plot_altair_magnitude (d : dict) (size : Z) (ctr : nat)
    (rows : pd.DataFrame) :
  append_all d [] = Ok rows → rows ≠ [] →
  ∃ nyquists bode_mags bode_phss k,
    plot_altair d size ctr = Ok (figure (nyquists, bode_mags, bode_phss), k) ∧
    (∀ c r, c ∈ bode_mags → r ∈ alt.data c →
       alt.plotted_y c r
       = Some (sqrt (pd.z_real r ^ 2 + pd.z_imag r ^ 2))) ∧
    (∀ c r v, c ∈ bode_mags → r ∈ alt.data c → alt.plotted_y c r = Some v →
       0 <= v ∧
       v * v = pd.z_real r * pd.z_real r + pd.z_imag r * pd.z_imag r) ∧
    (∀ r, r ∈ rows → pd.fmt r = "-" ∨ pd.fmt r = "o" →
       ∃ c, c ∈ bode_mags ∧ r ∈ alt.data c).
Proof.
  intros Hrows Hne.
  destruct (plot_altair_ok d size ctr rows Hrows Hne)
    as (min_x & max_re & min_y & max_ni & _ & _ & _ & _ & Hrun).
  destruct (blocks rows min_x _ min_y _ size ctr)
    as [[[nyqs mags] phss] k] eqn:Hb.
  exists nyqs, mags, phss, k. split; [exact Hrun|]. clear Hrun.
  revert Hb. by_blocks; intros [= <- <- <- <-].
  all: split; [intros c r Hc _; each_chart Hc; apply (drawn_mag r)|].
  all: split;
    [ intros c r v Hc _ Hv; each_chart Hc; apply (mag_is_modulus r v Hv) |].
  all: intros r Hr [Hf|Hf]; try absent_tag; in_its_group.
Qed.

Lemma plot_altair_magnitude_witness :
  ∃ nyquists bode_mags bode_phss k,
    plot_altair
      [("data", {| ds.f := [1; 10];
                   ds.Z := [np.Complex 100 0; np.Complex 80 (-20)];
                   ds.fmt := Some "o" |});
       ("fit", {| ds.f := [1; 10];
                  ds.Z := [np.Complex 99 0; np.Complex 81 (-19)];
                  ds.fmt := Some "-" |})] 400 0%nat
    = Ok (figure (nyquists, bode_mags, bode_phss), k) ∧
    (∀ c r, c ∈ bode_mags → r ∈ alt.data c →
       alt.plotted_y c r
       = Some (sqrt (pd.z_real r ^ 2 + pd.z_imag r ^ 2))) ∧
    (∀ c r v, c ∈ bode_mags → r ∈ alt.data c → alt.plotted_y c r = Some v →
       0 <= v ∧
       v * v = pd.z_real r * pd.z_real r + pd.z_imag r * pd.z_imag r) ∧
    (∀ r, r ∈ [ {| pd.f := 1; pd.z_real := 100; pd.z_imag := 0;
                   pd.kind := "data"; pd.fmt := "o" |};
                {| pd.f := 10; pd.z_real := 80; pd.z_imag := -20;
                   pd.kind := "data"; pd.fmt := "o" |};
                {| pd.f := 1; pd.z_real := 99; pd.z_imag := 0;
                   pd.kind := "fit"; pd.fmt := "-" |};
                {| pd.f := 10; pd.z_real := 81; pd.z_imag := -19;
                   pd.kind := "fit"; pd.fmt := "-" |} ] →
       pd.fmt r = "-" ∨ pd.fmt r = "o" →
       ∃ c, c ∈ bode_mags ∧ r ∈ alt.data c).
Proof.
  eapply plot_altair_magnitude.
  - reflexivity.
  - discriminate.
Defined.

(** C3: every sub-chart of the phase Bode panel, line or point, draws the
    calculated field neg_phase, which is -atan(imag/real) for every sample
    alike; the value drawn is - atan (imag / real) whatever the sign of the
    real part (at real = 0 the quotient is no real number); no calculated
    field of any sub-chart uses the two-argument arctangent, and on the left
    half plane the value drawn is not the angle that the two-argument
    arctangent would give. *)
Theorem plot_altair_phase (d : dict) (size : Z) (ctr : nat)
    (rows : pd.DataFrame) :
  append_all d [] = Ok rows → rows ≠ [] →
  ∃ nyquists bode_mags bode_phss k,
    plot_altair d size ctr = Ok (figure (nyquists, bode_mags, bode_phss), k) ∧
    (∀ c, c ∈ bode_phss →
       encodes c "f:Q" "neg_phase:Q" ∧
       alt.calculated "neg_phase" (alt.calculate c) = Some neg_phase) ∧
    (∀ c r, c ∈ bode_phss → r ∈ alt.data c → pd.z_real r ≠ 0 →
       alt.plotted_y c r = Some (- atan (pd.z_imag r / pd.z_real r))) ∧
    (∀ c r, c ∈ bode_phss → r ∈ alt.data c → pd.z_real r < 0 →
       alt.plotted_y c r
       ≠ Some (- vega.atan2 (pd.z_imag r) (pd.z_real r))) ∧
    (∀ c n e, c ∈ sub_charts (nyquists, bode_mags, bode_phss) →
       (n, e) ∈ alt.calculate c → vega.uses_atan2 e = false) ∧
    (∀ r, r ∈ rows → pd.fmt r = "-" ∨ pd.fmt r = "o" →
       ∃ c, c ∈ bode_phss ∧ r ∈ alt.data c).
Proof.
  intros Hrows Hne.
  destruct (plot_altair_ok d size ctr rows Hrows Hne)
    as (min_x & max_re & min_y & max_ni & _ & _ & _ & _ & Hrun).
  destruct (blocks rows min_x _ min_y _ size ctr)
    as [[[nyqs mags] phss] k] eqn:Hb.
  exists nyqs, mags, phss, k. split; [exact Hrun|]. clear Hrun.
  revert Hb. by_blocks; intros [= <- <- <- <-].
  all: split; [intros c Hc; each_chart Hc; repeat split; reflexivity|].
  all: split;
    [ intros c r Hc _ Hre; each_chart Hc; apply (drawn_neg_phase r Hre) |].
  all: split;
    [ intros c r Hc _ Hre; each_chart Hc;
      apply (neg_phase_no_quadrant r Hre) |].
  all: split;
    [ intros c n e Hc He; simpl in Hc; each_chart Hc; simpl in He;
      repeat (apply elem_of_cons in He as [[= -> ->]|He]; [reflexivity|]);
      apply elem_of_nil in He; contradiction |].
  all: intros r Hr [Hf|Hf]; try absent_tag; in_its_group.
Qed.

Lemma plot_altair_phase_witness :
  ∃ nyquists bode_mags bode_phss k,
    plot_altair
      [("data", {| ds.f := [1; 10];
                   ds.Z := [np.Complex (-100) 0; np.Complex 80 (-20)];
                   ds.fmt := Some "o" |})] 400 0%nat
    = Ok (figure (nyquists, bode_mags, bode_phss), k) ∧
    (∀ c, c ∈ bode_phss →
       encodes c "f:Q" "neg_phase:Q" ∧
       alt.calculated "neg_phase" (alt.calculate c) = Some neg_phase) ∧
    (∀ c r, c ∈ bode_phss → r ∈ alt.data c → pd.z_real r ≠ 0 →
       alt.plotted_y c r = Some (- atan (pd.z_imag r / pd.z_real r))) ∧
    (∀ c r, c ∈ bode_phss → r ∈ alt.data c → pd.z_real r < 0 →
       alt.plotted_y c r
       ≠ Some (- vega.atan2 (pd.z_imag r) (pd.z_real r))) ∧
    (∀ c n e, c ∈ sub_charts (nyquists, bode_mags, bode_phss) →
       (n, e) ∈ alt.calculate c → vega.uses_atan2 e = false) ∧
    (∀ r, r ∈ [ {| pd.f := 1; pd.z_real := -100; pd.z_imag := 0;
                   pd.kind := "data"; pd.fmt := "o" |};
                {| pd.f := 10; pd.z_real := 80; pd.z_imag := -20;
                   pd.kind := "data"; pd.fmt := "o" |} ] →
       pd.fmt r = "-" ∨ pd.fmt r = "o" →
       ∃ c, c ∈ bode_phss ∧ r ∈ alt.data c).
Proof.
  eapply plot_altair_phase.
  - reflexivity.
  - discriminate.
Defined.

(** C6: when every dataset is line-tagged, no sub-chart of the returned
    figure carries a selection or a size that follows one: no hover, no pan
    and zoom.  When every dataset is point-tagged, each of the three panels
    is one point sub-chart.  One and the same selection, the one built at
    the start of the call and known by its name, is attached to the three
    of them and drives the marker size in each: a single selection of the
    nearest point, on mouse-over, keyed on the frequency f.  Each of the
    three also carries an interval selection bound to its scales, for pan
    and zoom: one for the Nyquist sub-chart, another for the two Bode
    sub-charts.  The three names are new and differ from one another. *)
Theorem plot_altair_interactivity (d : dict) (size : Z) (ctr : nat)
    (rows : pd.DataFrame) :
  append_all d [] = Ok rows → rows ≠ [] →
  ∃ nyquists bode_mags bode_phss k,
    plot_altair d size ctr
    = Ok (figure (nyquists, bode_mags, bode_phss), k) ∧
    (Forall (λ e, tag e.2 = "-") d →
     ∀ c, c ∈ alt.units (figure (nyquists, bode_mags, bode_phss)) →
          inert c ∧ (∀ s, ¬ hovers s c) ∧ ¬ pans_and_zooms c) ∧
    (Forall (λ e, tag e.2 = "o") d →
     ∃ n m p zoom_n zoom_b,
       nyquists = [n] ∧ bode_mags = [m] ∧ bode_phss = [p] ∧
       alt.sel_type (nearest ctr) = alt.single ∧
       alt.nearest (nearest ctr) = true ∧
       alt.on (nearest ctr) = Some "mouseover" ∧
       alt.fields (nearest ctr) = ["f"] ∧
       (∀ c, c ∈ alt.units (figure (nyquists, bode_mags, bode_phss)) →
             hovers (nearest ctr) c ∧ pans_and_zooms c) ∧
       alt.selection n = [nearest ctr; alt.pan_zoom zoom_n] ∧
       alt.selection m = [nearest ctr; alt.pan_zoom zoom_b] ∧
       alt.selection p = [nearest ctr; alt.pan_zoom zoom_b] ∧
       (ctr < alt.name (nearest ctr) < zoom_n)%nat ∧
       (zoom_n < zoom_b ≤ k)%nat).
Proof.
  intros Hrows Hne.
  destruct (plot_altair_ok d size ctr rows Hrows Hne)
    as (min_x & max_re & min_y & max_ni & _ & _ & _ & _ & Hrun).
  destruct (blocks rows min_x _ min_y _ size ctr)
    as [[[nyqs mags] phss] k] eqn:Hb.
  exists nyqs, mags, phss, k. split; [exact Hrun|]. clear Hrun.
  assert (Hsome : ∃ r, r ∈ rows).
  { destruct rows as [|r rows']; [congruence|].
    exists r. apply list_elem_of_here. }
  destruct Hsome as (r0 & Hr0).
  split.
  - intros Hall. pose proof (append_all_tags d rows "-" Hrows Hall) as Htags.
    assert (Hno : "o" ∉ pd.unique_fmt rows).
    { intros (r & Hr & Hf)%in_unique_fmt.
      rewrite (Htags r Hr) in Hf. discriminate. }
    revert Hb. by_blocks; intros [= <- <- <- <-]; try contradiction.
    all: intros c Hc; simpl in Hc; each_chart Hc.
    all: split; [split; reflexivity|].
    all: split; [intros s [_ H']; discriminate H'|].
    all: intros (z & Hz); simpl in Hz; apply elem_of_nil in Hz; exact Hz.
  - intros Hall. pose proof (append_all_tags d rows "o" Hrows Hall) as Htags.
    assert (Hno : "-" ∉ pd.unique_fmt rows).
    { intros (r & Hr & Hf)%in_unique_fmt.
      rewrite (Htags r Hr) in Hf. discriminate. }
    assert (Hyes : "o" ∈ pd.unique_fmt rows).
    { apply in_unique_fmt. exists r0. split; [exact Hr0|apply Htags, Hr0]. }
    revert Hb. by_blocks; intros [= <- <- <- <-]; try contradiction.
    eexists _, _, _, (S (S ctr)), (S (S (S ctr))).
    do 7 (split; [reflexivity|]).
    split.
    { intros c Hc; simpl in Hc; each_chart Hc.
      all: split; [split; [apply list_elem_of_here|reflexivity]|].
      all: eexists; apply list_elem_of_further, list_elem_of_here. }
    do 3 (split; [reflexivity|]).
    simpl. lia.
Qed.

Lemma plot_altair_interactivity_witness :
  ∃ nyquists bode_mags bode_phss k,
    plot_altair
      [("data", {| ds.f := [1; 10];
                   ds.Z := [np.Complex 100 0; np.Complex 80 (-20)];
                   ds.fmt := Some "o" |})] 400 0%nat
    = Ok (figure (nyquists, bode_mags, bode_phss), k) ∧
    (Forall (λ e, tag e.2 = "-")
       [("data", {| ds.f := [1; 10];
                    ds.Z := [np.Complex 100 0; np.Complex 80 (-20)];
                    ds.fmt := Some "o" |})] →
     ∀ c, c ∈ alt.units (figure (nyquists, bode_mags, bode_phss)) →
          inert c ∧ (∀ s, ¬ hovers s c) ∧ ¬ pans_and_zooms c) ∧
    (Forall (λ e, tag e.2 = "o")
       [("data", {| ds.f := [1; 10];
                    ds.Z := [np.Complex 100 0; np.Complex 80 (-20)];
                    ds.fmt := Some "o" |})] →
     ∃ n m p zoom_n zoom_b,
       nyquists = [n] ∧ bode_mags = [m] ∧ bode_phss = [p] ∧
       alt.sel_type (nearest 0) = alt.single ∧
       alt.nearest (nearest 0) = true ∧
       alt.on (nearest 0) = Some "mouseover" ∧
       alt.fields (nearest 0) = ["f"] ∧
       (∀ c, c ∈ alt.units (figure (nyquists, bode_mags, bode_phss)) →
             hovers (nearest 0) c ∧ pans_and_zooms c) ∧
       alt.selection n = [nearest 0; alt.pan_zoom zoom_n] ∧
       alt.selection m = [nearest 0; alt.pan_zoom zoom_b] ∧
       alt.selection p = [nearest 0; alt.pan_zoom zoom_b] ∧
       (0 < alt.name (nearest 0) < zoom_n)%nat ∧
       (zoom_n < zoom_b ≤ k)%nat).
Proof.
  eapply plot_altair_interactivity.
  - reflexivity.
  - discriminate.
Defined.

(** C7: a tag other than '-' and 'o' raises nothing: whether
    [plot_altair] returns does not depend on the tags, and the lines of
    such a tag are in the data of no sub-chart of any panel; when no line
    has the tag '-' no panel has a line sub-chart, and when no line has
    the tag 'o' no panel has a point sub-chart. *)
Theorem plot_altair_unrecognized_tag (d : dict) (size : Z) (ctr : nat)
    (rows : pd.DataFrame) :
  append_all d [] = Ok rows → rows ≠ [] →
  ∃ nyquists bode_mags bode_phss k,
    plot_altair d size ctr = Ok (figure (nyquists, bode_mags, bode_phss), k) ∧
    (∀ g, is_ok (plot_altair (retag g d) size ctr) = true) ∧
    (∀ c r, c ∈ sub_charts (nyquists, bode_mags, bode_phss) →
       r ∈ alt.data c → pd.fmt r = "-" ∨ pd.fmt r = "o") ∧
    ((∀ r, r ∈ rows → pd.fmt r ≠ "-") →
     ∀ c, c ∈ sub_charts (nyquists, bode_mags, bode_phss) →
          alt.mark c ≠ Some alt.line) ∧
    ((∀ r, r ∈ rows → pd.fmt r ≠ "o") →
     ∀ c, c ∈ sub_charts (nyquists, bode_mags, bode_phss) →
          alt.mark c ≠ Some alt.circle).
Proof.
  intros Hrows Hne.
  destruct (plot_altair_ok d size ctr rows Hrows Hne)
    as (min_x & max_re & min_y & max_ni & _ & _ & _ & _ & Hrun).
  destruct (blocks rows min_x _ min_y _ size ctr)
    as [[[nyqs mags] phss] k] eqn:Hb.
  exists nyqs, mags, phss, k. split; [exact Hrun|]. clear Hrun.
  split.
  { intros g.
    destruct (append_all_retag g d [] [] rows Hrows eq_refl)
      as (rows' & Hrows' & Hlen).
    assert (Hne' : rows' ≠ []).
    { intros ->. destruct rows; [congruence|discriminate]. }
    destruct (plot_altair_ok (retag g d) size ctr rows' Hrows' Hne')
      as (? & ? & ? & ? & _ & _ & _ & _ & ->).
    reflexivity. }
  revert Hb. by_blocks; intros [= <- <- <- <-].
  all: split;
    [ intros c r Hc Hr; simpl in Hc; each_chart Hc; simpl in Hr;
      apply in_get_group in Hr as [Hf _]; auto |].
  all: split; intros Hnone c Hc; simpl in Hc; each_chart Hc;
    try discriminate.
  all: match goal with
       | H : _ ∈ pd.unique_fmt _ |- _ =>
           apply in_unique_fmt in H as (r & Hr & Hf);
           exfalso; exact (Hnone r Hr Hf)
       end.
Qed.

Lemma plot_altair_unrecognized_tag_witness :
  ∃ nyquists bode_mags bode_phss k,
    plot_altair
      [("data", {| ds.f := [1; 10];
                   ds.Z := [np.Complex 100 0; np.Complex 80 (-20)];
                   ds.fmt := Some "x" |});
       ("fit", {| ds.f := [1];
                  ds.Z := [np.Complex 99 0];
                  ds.fmt := Some "-" |})] 400 0%nat
    = Ok (figure (nyquists, bode_mags, bode_phss), k) ∧
    (∀ g, is_ok (plot_altair
                   (retag g
                      [("data", {| ds.f := [1; 10];
                                   ds.Z := [np.Complex 100 0;
                                            np.Complex 80 (-20)];
                                   ds.fmt := Some "x" |});
                       ("fit", {| ds.f := [1];
                                  ds.Z := [np.Complex 99 0];
                                  ds.fmt := Some "-" |})]) 400 0%nat)
          = true) ∧
    (∀ c r, c ∈ sub_charts (nyquists, bode_mags, bode_phss) →
       r ∈ alt.data c → pd.fmt r = "-" ∨ pd.fmt r = "o") ∧
    ((∀ r, r ∈ [ {| pd.f := 1; pd.z_real := 100; pd.z_imag := 0;
                    pd.kind := "data"; pd.fmt := "x" |};
                 {| pd.f := 10; pd.z_real := 80; pd.z_imag := -20;
                    pd.kind := "data"; pd.fmt := "x" |};
                 {| pd.f := 1; pd.z_real := 99; pd.z_imag := 0;
                    pd.kind := "fit"; pd.fmt := "-" |} ] →
           pd.fmt r ≠ "-") →
     ∀ c, c ∈ sub_charts (nyquists, bode_mags, bode_phss) →
          alt.mark c ≠ Some alt.line) ∧
    ((∀ r, r ∈ [ {| pd.f := 1; pd.z_real := 100; pd.z_imag := 0;
                    pd.kind := "data"; pd.fmt := "x" |};
                 {| pd.f := 10; pd.z_real := 80; pd.z_imag := -20;
                    pd.kind := "data"; pd.fmt := "x" |};
                 {| pd.f := 1; pd.z_real := 99; pd.z_imag := 0;
                    pd.kind := "fit"; pd.fmt := "-" |} ] →
           pd.fmt r ≠ "o") →
     ∀ c, c ∈ sub_charts (nyquists, bode_mags, bode_phss) →
          alt.mark c ≠ Some alt.circle).
Proof.
  eapply plot_altair_unrecognized_tag.
  - reflexivity.
  - discriminate.
Defined.

(** A table where every line has an unknown tag still gives a figure, with
    three empty layers. *)
Example only_unknown_tags :
  plot_altair
    [("data", {| ds.f := [1; 10];
                 ds.Z := [np.Complex 100 0; np.Complex 80 (-20)];
                 ds.fmt := Some "line" |})] 400 0%nat
  = Ok (figure ([], [], []), 1%nat).
Proof. reflexivity. Qed.

(** C10: a dataset without the 'fmt' key gets the tag 'o': each of its
    lines is in the table under that tag, is in the data of the point
    sub-chart of each of the three panels, which is drawn with circles,
    carries the hover selection and pans and zooms, and is in the data of
    no line sub-chart. *)
Theorem plot_altair_default_tag (d : dict) (size : Z) (ctr : nat)
    (rows : pd.DataFrame)
    (k : string) (e : ds.dataset) :
  append_all d [] = Ok rows → rows ≠ [] →
  (k, e) ∈ d → ds.fmt e = None →
  ∃ df nyquists bode_mags bode_phss ctr',
    pd.from_dict (ds.f e) (ds.Z e) k "o" = Ok df ∧
    length df = length (ds.Z e) ∧
    plot_altair d size ctr
    = Ok (figure (nyquists, bode_mags, bode_phss), ctr') ∧
    (∀ r, r ∈ df → r ∈ rows ∧ pd.fmt r = "o" ∧ pd.kind r = k) ∧
    (∀ r l, r ∈ df → l ∈ [nyquists; bode_mags; bode_phss] →
       ∃ c, c ∈ l ∧ r ∈ alt.data c ∧ alt.mark c = Some alt.circle ∧
            hovers (nearest ctr) c ∧ pans_and_zooms c) ∧
    (∀ r c, r ∈ df → c ∈ sub_charts (nyquists, bode_mags, bode_phss) →
       r ∈ alt.data c → alt.mark c = Some alt.circle).
Proof.
  intros Hrows Hne Hin Hfmt.
  destruct (append_all_each d [] rows k e Hrows Hin) as (df & Hdf).
  unfold tag in Hdf. rewrite Hfmt in Hdf. simpl in Hdf.
  destruct (from_dict_rows _ _ _ _ _ Hdf) as [Hlen Htag].
  assert (Hsub : ∀ r, r ∈ df → r ∈ rows).
  { intros r Hr. apply (append_all_elem d [] rows Hrows). right.
    exists k, e, df. unfold tag. rewrite Hfmt. auto. }
  destruct (plot_altair_ok d size ctr rows Hrows Hne)
    as (min_x & max_re & min_y & max_ni & _ & _ & _ & _ & Hrun).
  destruct (blocks rows min_x _ min_y _ size ctr)
    as [[[nyqs mags] phss] ctr'] eqn:Hb.
  exists df, nyqs, mags, phss, ctr'.
  split; [exact Hdf|]. split; [exact Hlen|]. split; [exact Hrun|].
  clear Hrun.
  split.
  { intros r Hr. split; [apply Hsub, Hr|apply Htag, Hr]. }
  revert Hb. by_blocks; intros [= <- <- <- <-].
  all: split;
    [ intros r l Hr Hl; pose proof (Hsub r Hr); destruct (Htag r Hr);
      try absent_tag;
      repeat (apply elem_of_cons in Hl as [->|Hl]);
      try (apply elem_of_nil in Hl; contradiction)
    | intros r c Hr Hc Hdata; simpl in Hc; each_chart Hc;
      try reflexivity;
      apply in_get_group in Hdata as [Hf _];
      destruct (Htag r Hr) as [Hf' _]; congruence ].
  all: first
    [ eexists; split; [apply list_elem_of_here|];
      split; [apply in_get_group; split; assumption|];
      split; [reflexivity|];
      split; [split; [apply list_elem_of_here|reflexivity]
             |eexists; apply list_elem_of_further, list_elem_of_here]
    | eexists; split; [apply list_elem_of_further, list_elem_of_here|];
      split; [apply in_get_group; split; assumption|];
      split; [reflexivity|];
      split; [split; [apply list_elem_of_here|reflexivity]
             |eexists; apply list_elem_of_further, list_elem_of_here] ].
Qed.

Lemma plot_altair_default_tag_witness :
  ∃ df nyquists bode_mags bode_phss ctr',
    pd.from_dict [1; 10] [np.Complex 100 0; np.Complex 80 (-20)] "data" "o"
    = Ok df ∧
    length df = length [np.Complex 100 0; np.Complex 80 (-20)] ∧
    plot_altair
      [("fit", {| ds.f := [1]; ds.Z := [np.Complex 99 0];
                  ds.fmt := Some "-" |});
       ("data", {| ds.f := [1; 10];
                   ds.Z := [np.Complex 100 0; np.Complex 80 (-20)];
                   ds.fmt := None |})] 400 0%nat
    = Ok (figure (nyquists, bode_mags, bode_phss), ctr') ∧
    (∀ r, r ∈ df →
       r ∈ [ {| pd.f := 1; pd.z_real := 99; pd.z_imag := 0;
                pd.kind := "fit"; pd.fmt := "-" |};
             {| pd.f := 1; pd.z_real := 100; pd.z_imag := 0;
                pd.kind := "data"; pd.fmt := "o" |};
             {| pd.f := 10; pd.z_real := 80; pd.z_imag := -20;
                pd.kind := "data"; pd.fmt := "o" |} ] ∧
       pd.fmt r = "o" ∧ pd.kind r = "data") ∧
    (∀ r l, r ∈ df → l ∈ [nyquists; bode_mags; bode_phss] →
       ∃ c, c ∈ l ∧ r ∈ alt.data c ∧ alt.mark c = Some alt.circle ∧
            hovers (nearest 0) c ∧ pans_and_zooms c) ∧
    (∀ r c, r ∈ df → c ∈ sub_charts (nyquists, bode_mags, bode_phss) →
       r ∈ alt.data c → alt.mark c = Some alt.circle).
Proof.
  eapply (plot_altair_default_tag _ 400 0%nat _ "data"
            {| ds.f := [1; 10];
               ds.Z := [np.Complex 100 0; np.Complex 80 (-20)];
               ds.fmt := None |}).
  - reflexivity.
  - discriminate.
  - apply list_elem_of_further, list_elem_of_here.
  - reflexivity.
Defined.

Lemma plot_altair_layout_witness :
  ∃ nyquists bode_mags bode_phss k,
    plot_altair
      [("data", {| ds.f := [1; 10];
                   ds.Z := [np.Complex 100 0; np.Complex 80 (-20)];
                   ds.fmt := Some "o" |});
       ("fit", {| ds.f := [1; 10];
                  ds.Z := [np.Complex 99 0; np.Complex 81 (-19)];
                  ds.fmt := Some "-" |})] 400 0%nat
    = Ok (alt.HConcatChart
            [alt.VConcatChart [alt.LayerChart bode_mags;
                               alt.LayerChart bode_phss];
             alt.LayerChart nyquists], k) ∧
    (∀ c, c ∈ bode_mags → encodes c "f:Q" "mag:Q") ∧
    (∀ c, c ∈ bode_phss → encodes c "f:Q" "neg_phase:Q") ∧
    (∀ c, c ∈ nyquists → encodes c "z_real:Q" "neg_z_imag:Q") ∧
    ((∃ r, r ∈ [ {| pd.f := 1; pd.z_real := 100; pd.z_imag := 0;
                    pd.kind := "data"; pd.fmt := "o" |};
                 {| pd.f := 10; pd.z_real := 80; pd.z_imag := -20;
                    pd.kind := "data"; pd.fmt := "o" |};
                 {| pd.f := 1; pd.z_real := 99; pd.z_imag := 0;
                    pd.kind := "fit"; pd.fmt := "-" |};
                 {| pd.f := 10; pd.z_real := 81; pd.z_imag := -19;
                    pd.kind := "fit"; pd.fmt := "-" |} ] ∧
           (pd.fmt r = "-" ∨ pd.fmt r = "o")) →
     nyquists ≠ [] ∧ bode_mags ≠ [] ∧ bode_phss ≠ []).
Proof.
  eapply plot_altair_layout.
  - reflexivity.
  - discriminate.
Defined.

(** ** Examples *)

(** The magnitude of 80-20j, about 82.46. *)
Example magnitude_example :
  ∃ v, vega.eval {| pd.f := 10; pd.z_real := 80; pd.z_imag := -20;
                    pd.kind := "data"; pd.fmt := "o" |} mag = vega.Finite v ∧
       8246 / 100 < v < 8247 / 100.
Proof.
  eexists. split; [apply eval_mag|]. simpl.
  replace (80 * (80 * 1) + -20 * (-20 * 1)) with 6800 by ring.
  split.
  - rewrite <- (sqrt_square (8246 / 100)) by lra.
    apply sqrt_lt_1; lra.
  - rewrite <- (sqrt_square (8247 / 100)) by lra.
    apply sqrt_lt_1; lra.
Qed.

(** A collection of line datasets only: one line sub-chart per panel,
    without selection. *)
Example line_only_example :
  ∃ n m p k,
    plot_altair
      [("fit", {| ds.f := [1; 10];
                  ds.Z := [np.Complex 99 0; np.Complex 81 (-19)];
                  ds.fmt := Some "-" |})] 400 0%nat
    = Ok (figure ([n], [m], [p]), k) ∧
    alt.mark n = Some alt.line ∧ inert n ∧ inert m ∧ inert p.
Proof.
  eexists _, _, _, _. split; [reflexivity|].
  repeat split; reflexivity.
Qed.

(** Arrays of different lengths are refused when the table is built. *)
Example ragged_dataset :
  plot_altair
    [("data", {| ds.f := [1; 10]; ds.Z := [np.Complex 100 0];
                 ds.fmt := None |})] 400 0%nat
  = Raise ValueError.
Proof. reflexivity. Qed.

(** Without datasets there is no line to take a maximum of. *)
Example no_dataset : plot_altair [] 400 0%nat = Raise ValueError.
Proof. reflexivity. Qed.

(** The order of magnitude for the default scale is 0. *)
Example default_scale_order :
  _order_of_mag (FixedOrderFormatter_ (- np.log10 1)) = 0.
Proof. simpl. unfold np.log10. rewrite ln_1. lra. Qed.

(** ** plot_nyquist: calls in sequence *)




(** X2: the formatting is idempotent: a second call with the same scale and
    units adds its line and changes nothing else on the axes. *)
Theorem plot_nyquist_formatting_idempotent (σ : store) (ax : handle)
    (a : Axes) (Z1 Z2 : np.array) (scale : R) (units fmt1 fmt2 : string)
    (kw1 kw2 : list (string * string)) :
  σ !! ax = Some a →
  ∃ σ1 σ2 a1 a2,
    plot_nyquist ax Z1 scale units fmt1 kw1 σ = Some (ax, σ1) ∧
    plot_nyquist ax Z2 scale units fmt2 kw2 σ1 = Some (ax, σ2) ∧
    σ1 !! ax = Some a1 ∧ σ2 !! ax = Some a2 ∧
    xaxis a2 = xaxis a1 ∧ yaxis a2 = yaxis a1 ∧
    aspect a2 = aspect a1 ∧ xgrid a2 = xgrid a1 ∧ ygrid a2 = ygrid a1 ∧
    ∃ l, lines a2 = lines a1 ++ [l].
Proof.
  intros Hax.
  exists (<[ax := drawn Z1 scale units fmt1 kw1 a]> σ),
         (<[ax := drawn Z2 scale units fmt2 kw2
                    (drawn Z1 scale units fmt1 kw1 a)]> σ),
         (drawn Z1 scale units fmt1 kw1 a),
         (drawn Z2 scale units fmt2 kw2 (drawn Z1 scale units fmt1 kw1 a)).
  split; [exact (plot_nyquist_run σ ax a Hax Z1 scale units fmt1 kw1)|].
  split.
  { rewrite (plot_nyquist_run _ ax (drawn Z1 scale units fmt1 kw1 a))
      by apply lookup_insert_eq.
    rewrite insert_insert_eq. reflexivity. }
  split; [apply lookup_insert_eq|]. split; [apply lookup_insert_eq|].
  do 5 (split; [reflexivity|]).
  eexists. reflexivity.
Qed.

Lemma plot_nyquist_formatting_idempotent_witness :
  ∃ σ1 σ2 a1 a2,
    plot_nyquist 0%nat [np.Complex 100 0] 10 "Ohms" "o" []
                 {[ 0%nat := blank_axes ]} = Some (0%nat, σ1) ∧
    plot_nyquist 0%nat [np.Complex 99 0] 10 "Ohms" "-" [] σ1
    = Some (0%nat, σ2) ∧
    σ1 !! 0%nat = Some a1 ∧ σ2 !! 0%nat = Some a2 ∧
    xaxis a2 = xaxis a1 ∧ yaxis a2 = yaxis a1 ∧
    aspect a2 = aspect a1 ∧ xgrid a2 = xgrid a1 ∧ ygrid a2 = ygrid a1 ∧
    ∃ l, lines a2 = lines a1 ++ [l].
Proof.
  apply (plot_nyquist_formatting_idempotent
           {[ 0%nat := blank_axes ]} 0%nat blank_axes).
  apply lookup_singleton_eq.
Defined.



(** ** The table, in one pass *)

Lemma from_dict_aligned (k : string) (e : ds.dataset) :
  aligned e →
  pd.from_dict (ds.f e) (ds.Z e) k (tag e) = Ok (samples k e).
Proof.
  unfold aligned, pd.from_dict. intros ->. rewrite Nat.eqb_refl. reflexivity.
Qed.

Lemma from_dict_ragged (k g : string) (e : ds.dataset) :
  ¬ aligned e →
  pd.from_dict (ds.f e) (ds.Z e) k g = Raise ValueError.
Proof.
  unfold aligned, pd.from_dict. intros Hne.
  destruct (Nat.eqb_spec (length (ds.f e)) (length (ds.Z e)));
    [contradiction|reflexivity].
Qed.

#[local] Instance aligned_dec (e : ds.dataset) : Decision (aligned e).
Proof. unfold aligned. apply _. Defined.

Lemma append_all_aligned (d : dict) (acc : pd.DataFrame) :
  Forall (λ e, aligned e.2) d → append_all d acc = Ok (acc ++ table d).
Proof.
  revert acc. induction d as [|[k e] rest IH]; intros acc Hall.
  - simpl. rewrite app_nil_r. reflexivity.
  - apply Forall_cons in Hall as [He Hrest]. simpl in He.
    cbn [append_all]. fold (tag e). rewrite (from_dict_aligned k e He).
    simpl. rewrite (IH _ Hrest), <- app_assoc. reflexivity.
Qed.

Lemma append_all_ragged (d : dict) (acc : pd.DataFrame) :
  ¬ Forall (λ e, aligned e.2) d → append_all d acc = Raise ValueError.
Proof.
  revert acc. induction d as [|[k e] rest IH]; intros acc Hnot.
  - exfalso. apply Hnot. constructor.
  - cbn [append_all]. destruct (aligned_dec e) as [He|He].
    + fold (tag e). rewrite (from_dict_aligned k e He). simpl.
      apply IH. intros Hrest. apply Hnot. constructor; assumption.
    + rewrite (from_dict_ragged k _ e He). reflexivity.
Qed.

Lemma append_all_ok_inv (d : dict) (rows : pd.DataFrame) :
  append_all d [] = Ok rows →
  Forall (λ e, aligned e.2) d ∧ rows = table d.
Proof.
  intros Hrows.
  destruct (decide (Forall (λ e : string * ds.dataset, aligned e.2) d))
    as [Hall|Hnot].
  - rewrite (append_all_aligned d [] Hall) in Hrows.
    injection Hrows as <-. auto.
  - rewrite (append_all_ragged d [] Hnot) in Hrows. discriminate.
Qed.

Lemma length_samples (k : string) (e : ds.dataset) :
  aligned e → length (samples k e) = length (ds.Z e).
Proof.
  unfold aligned, samples. intros He.
  rewrite length_map, length_combine. lia.
Qed.

Lemma table_nil_iff (d : dict) :
  Forall (λ e, aligned e.2) d →
  table d = [] ↔ Forall (λ e, ds.Z e.2 = []) d.
Proof.
  induction d as [|[k e] rest IH]; intros Hall.
  - split; [constructor|reflexivity].
  - apply Forall_cons in Hall as [He Hrest]. simpl in He.
    unfold table in *. simpl. split.
    + intros [H1 H2]%app_eq_nil. constructor.
      * simpl. apply (f_equal length) in H1.
        rewrite (length_samples k e He) in H1.
        destruct (ds.Z e); [reflexivity|discriminate].
      * apply IH; assumption.
    + intros [H1 H2]%Forall_cons. simpl in H1.
      assert (E : samples k e = []).
      { unfold samples. rewrite H1. destruct (ds.f e); reflexivity. }
      rewrite E. simpl. apply IH; assumption.
Qed.

(** X6: [plot_altair] returns a figure exactly when every dataset has as many
    frequencies as impedances and at least one dataset has a sample; in
    every other case it raises [ValueError]. *)
Theorem plot_altair_returns_iff (d : dict) (size : Z) (ctr : nat) :
  (is_ok (plot_altair d size ctr) = true ↔
   Forall (λ e, aligned e.2) d ∧ Exists (λ e, ds.Z e.2 ≠ []) d) ∧
  (is_ok (plot_altair d size ctr) = false →
   plot_altair d size ctr = Raise ValueError).
Proof.
  destruct (decide (Forall (λ e : string * ds.dataset, aligned e.2) d))
    as [Hall|Hnot].
  - pose proof (append_all_aligned d [] Hall) as Hrows. simpl in Hrows.
    destruct (table d) as [|r rows'] eqn:Ht.
    + rewrite (plot_altair_no_rows d size ctr Hrows). simpl.
      split; [|reflexivity]. split; [discriminate|].
      intros [_ Hex]. apply Exists_exists in Hex as (e & Hin & Hne).
      apply (table_nil_iff d Hall) in Ht.
      rewrite Forall_forall in Ht. exfalso. apply Hne, Ht, Hin.
    + destruct (plot_altair_ok d size ctr (r :: rows') Hrows)
        as (? & ? & ? & ? & _ & _ & _ & _ & ->); [discriminate|].
      simpl. split; [|discriminate]. split; [|reflexivity].
      intros _. split; [exact Hall|].
      apply (not_Forall_Exists (λ e : string * ds.dataset, ds.Z e.2 = [])).
      intros Hnil. apply (table_nil_iff d Hall) in Hnil.
      rewrite Hnil in Ht. discriminate.
  - rewrite (plot_altair_bad_table d size ctr ValueError
               (append_all_ragged d [] Hnot)).
    simpl. split; [|reflexivity]. split; [discriminate|].
    intros [Hall _]. contradiction.
Qed.

Lemma length_table (d : dict) :
  Forall (λ e, aligned e.2) d →
  length (table d) = sum_list (map (λ e, length (ds.Z e.2)) d).
Proof.
  induction d as [|[k e] rest IH]; intros Hall; [reflexivity|].
  apply Forall_cons in Hall as [He Hrest]. simpl in He.
  unfold table in *. simpl. rewrite length_app, (length_samples k e He).
  rewrite (IH Hrest). reflexivity.
Qed.

(** X7: the loop that appends dataset after dataset builds the table that one
    pass over the datasets gives: their samples in the order of the
    datasets, as many lines as there are impedances. *)
Theorem table_in_one_pass (d : dict) (rows : pd.DataFrame) :
  append_all d [] = Ok rows →
  rows = table d ∧
  length rows = sum_list (map (λ e, length (ds.Z e.2)) d).
Proof.
  intros Hrows. apply append_all_ok_inv in Hrows as [Hall ->].
  split; [reflexivity|apply length_table, Hall].
Qed.

Lemma table_in_one_pass_witness :
  [ {| pd.f := 1; pd.z_real := 99; pd.z_imag := 0;
       pd.kind := "fit"; pd.fmt := "-" |};
    {| pd.f := 1; pd.z_real := 100; pd.z_imag := 0;
       pd.kind := "data"; pd.fmt := "o" |};
    {| pd.f := 10; pd.z_real := 80; pd.z_imag := -20;
       pd.kind := "data"; pd.fmt := "o" |} ]
  = table [("fit", {| ds.f := [1]; ds.Z := [np.Complex 99 0];
                      ds.fmt := Some "-" |});
           ("data", {| ds.f := [1; 10];
                       ds.Z := [np.Complex 100 0; np.Complex 80 (-20)];
                       ds.fmt := None |})] ∧
  length [ {| pd.f := 1; pd.z_real := 99; pd.z_imag := 0;
              pd.kind := "fit"; pd.fmt := "-" |};
           {| pd.f := 1; pd.z_real := 100; pd.z_imag := 0;
              pd.kind := "data"; pd.fmt := "o" |};
           {| pd.f := 10; pd.z_real := 80; pd.z_imag := -20;
              pd.kind := "data"; pd.fmt := "o" |} ]
  = sum_list
      (map (λ e, length (ds.Z e.2))
         [("fit", {| ds.f := [1]; ds.Z := [np.Complex 99 0];
                     ds.fmt := Some "-" |});
          ("data", {| ds.f := [1; 10];
                      ds.Z := [np.Complex 100 0; np.Complex 80 (-20)];
                      ds.fmt := None |})]).
Proof.
  apply table_in_one_pass. reflexivity.
Defined.

Lemma append_all_explicit_tag (d : dict) (acc : pd.DataFrame) :
  append_all (retag (λ _ e, Some (tag e)) d) acc = append_all d acc.
Proof.
  revert acc. induction d as [|[k e] rest IH]; intros acc; [reflexivity|].
  simpl. change (tag e) with (default "o" (ds.fmt e)).
  destruct (pd.from_dict (ds.f e) (ds.Z e) k (default "o" (ds.fmt e)));
    simpl; [apply IH|reflexivity].
Qed.

(** X8: leaving the 'fmt' key out and giving it as 'o' are the same thing: the
    collection where every dataset spells out the tag it ends up with gives
    the same outcome, figure or exception. *)
Theorem plot_altair_explicit_tag (d : dict) (size : Z) (ctr : nat) :
  plot_altair (retag (λ _ e, Some (tag e)) d) size ctr
  = plot_altair d size ctr.
Proof.
  unfold plot_altair. rewrite append_all_explicit_tag. reflexivity.
Qed.

(** ** The square range of the Nyquist panel *)

Lemma is_min_unique (l l' : list R) (m m' : R) :
  (∀ x, x ∈ l ↔ x ∈ l') → is_min m l → is_min m' l' → m = m'.
Proof.
  intros Hext [Hin Hlb] [Hin' Hlb'].
  apply Rle_antisym; [apply Hlb, Hext, Hin'|apply Hlb', Hext, Hin].
Qed.

Lemma is_max_unique (l l' : list R) (m m' : R) :
  (∀ x, x ∈ l ↔ x ∈ l') → is_max m l → is_max m' l' → m = m'.
Proof.
  intros Hext [Hin Hub] [Hin' Hub'].
  apply Rle_antisym; [apply Hub', Hext, Hin|apply Hub, Hext, Hin'].
Qed.

(** The run of [plot_altair], with the domains its Nyquist sub-charts
    get. *)
Lemma plot_altair_domains (d : dict) (size : Z) (ctr : nat)
    (rows : pd.DataFrame) :
  append_all d [] = Ok rows → rows ≠ [] →
  ∃ min_x max_re min_y max_ni nyqs mags phss k,
    is_min min_x (z_real_col rows) ∧ is_max max_re (z_real_col rows) ∧
    is_min min_y (np.neg (z_imag_col rows)) ∧
    is_max max_ni (np.neg (z_imag_col rows)) ∧
    plot_altair d size ctr = Ok (figure (nyqs, mags, phss), k) ∧
    ∀ c, c ∈ nyqs →
      alt.x_domain c
      = Some (min_x, min_x + Rmax (max_re - min_x) (max_ni - min_y)) ∧
      alt.y_domain c
      = Some (min_y, min_y + Rmax (max_re - min_x) (max_ni - min_y)).
Proof.
  intros Hrows Hne.
  destruct (plot_altair_ok d size ctr rows Hrows Hne)
    as (min_x & max_re & min_y & max_ni & Hmin_x & Hmax_re & Hmin_y
        & Hmax_ni & Hrun).
  destruct (blocks rows min_x _ min_y _ size ctr)
    as [[[nyqs mags] phss] k] eqn:Hb.
  exists min_x, max_re, min_y, max_ni, nyqs, mags, phss, k.
  do 4 (split; [assumption|]). split; [exact Hrun|]. clear Hrun.
  revert Hb. by_blocks; intros [= <- <- <- <-].
  all: intros c Hc; each_chart Hc; split; reflexivity.
Qed.

Lemma z_real_col_inv (x : R) (rows : pd.DataFrame) :
  x ∈ z_real_col rows → ∃ r, r ∈ rows ∧ pd.z_real r = x.
Proof.
  unfold z_real_col. intros (r & -> & Hr)%list_elem_of_fmap. eauto.
Qed.

Lemma neg_z_imag_col_inv (x : R) (rows : pd.DataFrame) :
  x ∈ np.neg (z_imag_col rows) → ∃ r, r ∈ rows ∧ - pd.z_imag r = x.
Proof.
  unfold np.neg, z_imag_col.
  intros (y & -> & (r & -> & Hr)%list_elem_of_fmap)%list_elem_of_fmap. eauto.
Qed.

Lemma unique_fmt_Permutation (g : string) (rows rows' : pd.DataFrame) :
  rows ≡ₚ rows' → g ∈ pd.unique_fmt rows ↔ g ∈ pd.unique_fmt rows'.
Proof.
  intros Hp. rewrite !in_unique_fmt.
  split; intros (r & Hr & Hf); exists r; split; try assumption.
  - rewrite <- Hp. exact Hr.
  - rewrite Hp. exact Hr.
Qed.

Lemma blocks_Permutation (rows rows' : pd.DataFrame)
    (min_x max_x min_y max_y : R) (size : Z) (ctr : nat) :
  rows ≡ₚ rows' →
  ∀ n m p k n' m' p' k',
    blocks rows min_x max_x min_y max_y size ctr = (n, m, p, k) →
    blocks rows' min_x max_x min_y max_y size ctr = (n', m', p', k') →
    Forall2 same_but_order n n' ∧ Forall2 same_but_order m m' ∧
    Forall2 same_but_order p p' ∧ k = k'.
Proof.
  intros Hp n m p k n' m' p' k'.
  pose proof (unique_fmt_Permutation "-" rows rows' Hp) as Hl.
  pose proof (unique_fmt_Permutation "o" rows rows' Hp) as Ho.
  assert (Hgl : pd.get_group "-" rows ≡ₚ pd.get_group "-" rows')
    by (unfold pd.get_group; rewrite Hp; reflexivity).
  assert (Hgo : pd.get_group "o" rows ≡ₚ pd.get_group "o" rows')
    by (unfold pd.get_group; rewrite Hp; reflexivity).
  by_blocks; intros [= <- <- <- <-] [= <- <- <- <-]; try tauto.
  all: repeat split; repeat constructor; simpl; assumption.
Qed.

(** X10: the order of the datasets shows only in the order of the lines of the
    data: for the same datasets in another order [plot_altair] returns a
    figure with the same sub-charts in the same places, the same domains
    and encodings, over the same lines. *)
Theorem plot_altair_dataset_order (d d' : dict) (size : Z) (ctr : nat)
    (rows : pd.DataFrame) :
  d ≡ₚ d' → append_all d [] = Ok rows → rows ≠ [] →
  ∃ n m p k n' m' p' k',
    plot_altair d size ctr = Ok (figure (n, m, p), k) ∧
    plot_altair d' size ctr = Ok (figure (n', m', p'), k') ∧
    Forall2 same_but_order n n' ∧ Forall2 same_but_order m m' ∧
    Forall2 same_but_order p p'.
Proof.
  intros Hperm Hrows Hne.
  destruct (append_all_ok_inv d rows Hrows) as [Hall ->].
  assert (Hall' : Forall (λ e, aligned e.2) d') by (rewrite <- Hperm; exact Hall).
  assert (Hp : table d ≡ₚ table d').
  { unfold table. apply Permutation_flat_map. exact Hperm. }
  pose proof (append_all_aligned d' [] Hall') as Hrows'. simpl in Hrows'.
  assert (Hne' : table d' ≠ []).
  { intros E. rewrite E in Hp. apply Permutation_nil_r in Hp. contradiction. }
  destruct (plot_altair_ok d size ctr _ Hrows Hne)
    as (min_x & max_re & min_y & max_ni & Hmin_x & Hmax_re & Hmin_y
        & Hmax_ni & Hrun).
  destruct (plot_altair_ok d' size ctr _ Hrows' Hne')
    as (min_x' & max_re' & min_y' & max_ni' & Hmin_x' & Hmax_re' & Hmin_y'
        & Hmax_ni' & Hrun').
  assert (Ere : ∀ x, x ∈ z_real_col (table d) ↔ x ∈ z_real_col (table d')).
  { intros x. unfold z_real_col. rewrite Hp. reflexivity. }
  assert (Eim : ∀ x, x ∈ np.neg (z_imag_col (table d))
                     ↔ x ∈ np.neg (z_imag_col (table d'))).
  { intros x. unfold np.neg, z_imag_col. rewrite Hp. reflexivity. }
  rewrite <- (is_min_unique _ _ _ _ Ere Hmin_x Hmin_x') in Hrun'.
  rewrite <- (is_max_unique _ _ _ _ Ere Hmax_re Hmax_re') in Hrun'.
  rewrite <- (is_min_unique _ _ _ _ Eim Hmin_y Hmin_y') in Hrun'.
  rewrite <- (is_max_unique _ _ _ _ Eim Hmax_ni Hmax_ni') in Hrun'.
  destruct (blocks (table d) min_x _ min_y _ size ctr)
    as [[[n m] p] k] eqn:Hb.
  destruct (blocks (table d') min_x _ min_y _ size ctr)
    as [[[n' m'] p'] k'] eqn:Hb'.
  exists n, m, p, k, n', m', p', k'.
  split; [exact Hrun|]. split; [exact Hrun'|].
  destruct (blocks_Permutation _ _ _ _ _ _ size ctr Hp _ _ _ _ _ _ _ _ Hb Hb')
    as (H1 & H2 & H3 & _).
  auto.
Qed.

Lemma plot_altair_dataset_order_witness :
  ∃ n m p k n' m' p' k',
    plot_altair
      [("data", {| ds.f := [1; 10];
                   ds.Z := [np.Complex 100 0; np.Complex 80 (-20)];
                   ds.fmt := Some "o" |});
       ("fit", {| ds.f := [1]; ds.Z := [np.Complex 99 0];
                  ds.fmt := Some "-" |})] 400 0%nat
    = Ok (figure (n, m, p), k) ∧
    plot_altair
      [("fit", {| ds.f := [1]; ds.Z := [np.Complex 99 0];
                  ds.fmt := Some "-" |});
       ("data", {| ds.f := [1; 10];
                   ds.Z := [np.Complex 100 0; np.Complex 80 (-20)];
                   ds.fmt := Some "o" |})] 400 0%nat
    = Ok (figure (n', m', p'), k') ∧
    Forall2 same_but_order n n' ∧ Forall2 same_but_order m m' ∧
    Forall2 same_but_order p p'.
Proof.
  eapply plot_altair_dataset_order.
  - apply perm_swap.
  - reflexivity.
  - discriminate.
Defined.

Lemma z_real_col_samples (k : string) (e : ds.dataset) :
  z_real_col (samples k e) = map (λ p, np.re p.2) (combine (ds.f e) (ds.Z e)).
Proof. unfold z_real_col, samples. rewrite map_map. reflexivity. Qed.

Lemma z_imag_col_samples (k : string) (e : ds.dataset) :
  z_imag_col (samples k e) = map (λ p, np.im p.2) (combine (ds.f e) (ds.Z e)).
Proof. unfold z_imag_col, samples. rewrite map_map. reflexivity. Qed.

Lemma z_real_col_table (d : dict) :
  z_real_col (table d)
  = flat_map (λ e, map (λ p, np.re p.2) (combine (ds.f e.2) (ds.Z e.2))) d.
Proof.
  induction d as [|[k e] rest IH]; [reflexivity|].
  unfold table, z_real_col in *. simpl. rewrite map_app, IH.
  f_equal. apply z_real_col_samples.
Qed.

Lemma z_imag_col_table (d : dict) :
  z_imag_col (table d)
  = flat_map (λ e, map (λ p, np.im p.2) (combine (ds.f e.2) (ds.Z e.2))) d.
Proof.
  induction d as [|[k e] rest IH]; [reflexivity|].
  unfold table, z_imag_col in *. simpl. rewrite map_app, IH.
  f_equal. apply z_imag_col_samples.
Qed.

Lemma columns_retag (g : string → ds.dataset → option string) (d : dict) :
  z_real_col (table (retag g d)) = z_real_col (table d) ∧
  z_imag_col (table (retag g d)) = z_imag_col (table d).
Proof.
  rewrite !z_real_col_table, !z_imag_col_table.
  induction d as [|[k e] rest [IHre IHim]]; [split; reflexivity|].
  simpl. rewrite IHre, IHim. split; reflexivity.
Qed.

(** X11: the tags have no part in the range: under any other tags the Nyquist
    sub-charts get the domains they had, those over all samples. *)
Theorem plot_altair_range_ignores_tags
    (g : string → ds.dataset → option string) (d : dict) (size : Z) (ctr : nat)
    (rows : pd.DataFrame) :
  append_all d [] = Ok rows → rows ≠ [] →
  ∃ n m p k n' m' p' k' lo_x hi_x lo_y hi_y,
    plot_altair d size ctr = Ok (figure (n, m, p), k) ∧
    plot_altair (retag g d) size ctr = Ok (figure (n', m', p'), k') ∧
    ∀ c, c ∈ n ++ n' →
      alt.x_domain c = Some (lo_x, hi_x) ∧
      alt.y_domain c = Some (lo_y, hi_y).
Proof.
  intros Hrows Hne.
  destruct (append_all_retag g d [] [] rows Hrows eq_refl)
    as (rows' & Hrows' & Hlen).
  assert (Hne' : rows' ≠ []).
  { intros ->. destruct rows; [congruence|discriminate]. }
  destruct (plot_altair_domains d size ctr rows Hrows Hne)
    as (min_x & max_re & min_y & max_ni & n & m & p & k
        & Hmin_x & Hmax_re & Hmin_y & Hmax_ni & Hrun & Hdom).
  destruct (plot_altair_domains (retag g d) size ctr rows' Hrows' Hne')
    as (min_x' & max_re' & min_y' & max_ni' & n' & m' & p' & k'
        & Hmin_x' & Hmax_re' & Hmin_y' & Hmax_ni' & Hrun' & Hdom').
  apply append_all_ok_inv in Hrows as [_ ->].
  apply append_all_ok_inv in Hrows' as [_ ->].
  destruct (columns_retag g d) as [Ere Eim].
  rewrite Ere in Hmin_x', Hmax_re'. rewrite Eim in Hmin_y', Hmax_ni'.
  assert (E1 : min_x = min_x') by (eapply is_min_unique; eauto).
  assert (E2 : max_re = max_re') by (eapply is_max_unique; eauto).
  assert (E3 : min_y = min_y') by (eapply is_min_unique; eauto).
  assert (E4 : max_ni = max_ni') by (eapply is_max_unique; eauto).
  subst min_x' max_re' min_y' max_ni'.
  exists n, m, p, k, n', m', p', k'. eexists _, _, _, _.
  split; [exact Hrun|]. split; [exact Hrun'|].
  intros c [Hc|Hc]%elem_of_app; [apply Hdom, Hc|apply Hdom', Hc].
Qed.

Lemma plot_altair_range_ignores_tags_witness :
  ∃ n m p k n' m' p' k' lo_x hi_x lo_y hi_y,
    plot_altair
      [("data", {| ds.f := [1; 10];
                   ds.Z := [np.Complex 100 0; np.Complex 80 (-20)];
                   ds.fmt := Some "o" |})] 400 0%nat
    = Ok (figure (n, m, p), k) ∧
    plot_altair
      (retag (λ _ _, Some "-")
         [("data", {| ds.f := [1; 10];
                      ds.Z := [np.Complex 100 0; np.Complex 80 (-20)];
                      ds.fmt := Some "o" |})]) 400 0%nat
    = Ok (figure (n', m', p'), k') ∧
    ∀ c, c ∈ n ++ n' →
      alt.x_domain c = Some (lo_x, hi_x) ∧
      alt.y_domain c = Some (lo_y, hi_y).
Proof.
  eapply (plot_altair_range_ignores_tags (λ _ _, Some "-") _ 400 0%nat).
  - reflexivity.
  - discriminate.
Defined.

(** X12: when all samples coincide, as with a single sample, both domains of
    the Nyquist panel have no width: they start and end on that sample. *)
Theorem plot_altair_single_point (d : dict) (size : Z) (ctr : nat)
    (rows : pd.DataFrame) :
  append_all d [] = Ok rows → rows ≠ [] →
  (∀ r r', r ∈ rows → r' ∈ rows →
     pd.z_real r = pd.z_real r' ∧ pd.z_imag r = pd.z_imag r') →
  ∃ n m p k x y,
    plot_altair d size ctr = Ok (figure (n, m, p), k) ∧
    (∀ r, r ∈ rows → pd.z_real r = x ∧ - pd.z_imag r = y) ∧
    ∀ c, c ∈ n →
      alt.x_domain c = Some (x, x) ∧ alt.y_domain c = Some (y, y).
Proof.
  intros Hrows Hne Hsame.
  destruct (plot_altair_domains d size ctr rows Hrows Hne)
    as (min_x & max_re & min_y & max_ni & n & m & p & k
        & [Imin_x _] & [Imax_re _] & [Imin_y _] & [Imax_ni _] & Hrun & Hdom).
  apply z_real_col_inv in Imin_x as (r1 & Hr1 & E1).
  apply z_real_col_inv in Imax_re as (r2 & Hr2 & E2).
  apply neg_z_imag_col_inv in Imin_y as (r3 & Hr3 & E3).
  apply neg_z_imag_col_inv in Imax_ni as (r4 & Hr4 & E4).
  exists n, m, p, k, min_x, min_y.
  split; [exact Hrun|]. split.
  { intros r Hr. destruct (Hsame r r1 Hr Hr1) as [-> _].
    destruct (Hsame r r3 Hr Hr3) as [_ ->]. auto. }
  intros c Hc. destruct (Hdom c Hc) as [-> ->].
  assert (Ex : max_re = min_x).
  { rewrite <- E1, <- E2. apply (Hsame r2 r1 Hr2 Hr1). }
  assert (Ey : max_ni = min_y).
  { rewrite <- E3, <- E4. destruct (Hsame r4 r3 Hr4 Hr3) as [_ ->].
    reflexivity. }
  rewrite Ex, Ey.
  replace (Rmax (min_x - min_x) (min_y - min_y)) with 0.
  - rewrite !Rplus_0_r. split; reflexivity.
  - rewrite !Rminus_diag. unfold Rmax. destruct (Rle_dec 0 0); reflexivity.
Qed.

Lemma plot_altair_single_point_witness :
  ∃ n m p k x y,
    plot_altair
      [("data", {| ds.f := [1]; ds.Z := [np.Complex 100 (-20)];
                   ds.fmt := None |})] 400 0%nat
    = Ok (figure (n, m, p), k) ∧
    (∀ r, r ∈ [ {| pd.f := 1; pd.z_real := 100; pd.z_imag := -20;
                   pd.kind := "data"; pd.fmt := "o" |} ] →
          pd.z_real r = x ∧ - pd.z_imag r = y) ∧
    ∀ c, c ∈ n →
      alt.x_domain c = Some (x, x) ∧ alt.y_domain c = Some (y, y).
Proof.
  eapply plot_altair_single_point.
  - reflexivity.
  - discriminate.
  - intros r r' ->%list_elem_of_singleton ->%list_elem_of_singleton.
    split; reflexivity.
Defined.

(** ** The sub-charts of the three panels *)

(** X13: the three panels go together: they have the same number of sub-charts,
    two at most, and the sub-charts at the same place draw the same lines
    with the same mark.  In a panel the line sub-chart comes before the
    point sub-chart, which is thus drawn on top, wherever the datasets are
    in the collection. *)
Theorem plot_altair_layers (d : dict) (size : Z) (ctr : nat)
    (rows : pd.DataFrame) :
  append_all d [] = Ok rows → rows ≠ [] →
  ∃ n m p k,
    plot_altair d size ctr = Ok (figure (n, m, p), k) ∧
    length n = length m ∧ length m = length p ∧ (length n ≤ 2)%nat ∧
    (∀ i cn cm cp,
       n !! i = Some cn → m !! i = Some cm → p !! i = Some cp →
       alt.data cn = alt.data cm ∧ alt.data cm = alt.data cp ∧
       alt.mark cn = alt.mark cm ∧ alt.mark cm = alt.mark cp) ∧
    (∀ l i j cl cp,
       l ∈ [n; m; p] → l !! i = Some cl → l !! j = Some cp →
       alt.mark cl = Some alt.line → alt.mark cp = Some alt.circle →
       (i < j)%nat).
Proof.
  intros Hrows Hne.
  destruct (plot_altair_ok d size ctr rows Hrows Hne)
    as (min_x & max_re & min_y & max_ni & _ & _ & _ & _ & Hrun).
  destruct (blocks rows min_x _ min_y _ size ctr)
    as [[[n m] p] k] eqn:Hb.
  exists n, m, p, k. split; [exact Hrun|]. clear Hrun.
  revert Hb. by_blocks; intros [= <- <- <- <-].
  all: do 3 (split; [simpl; lia|]).
  all: split;
    [ intros [|[|i]] cn cm cp; simpl; intros; simplify_eq; auto |].
  all: intros l i j cl cp Hl; each_chart Hl.
  all: destruct i as [|[|i]], j as [|[|j]]; simpl; intros;
    simplify_eq; lia.
Qed.

Lemma plot_altair_layers_witness :
  ∃ n m p k,
    plot_altair
      [("data", {| ds.f := [1; 10];
                   ds.Z := [np.Complex 100 0; np.Complex 80 (-20)];
                   ds.fmt := Some "o" |});
       ("fit", {| ds.f := [1]; ds.Z := [np.Complex 99 0];
                  ds.fmt := Some "-" |})] 400 0%nat
    = Ok (figure (n, m, p), k) ∧
    length n = length m ∧ length m = length p ∧ (length n ≤ 2)%nat ∧
    (∀ i cn cm cp,
       n !! i = Some cn → m !! i = Some cm → p !! i = Some cp →
       alt.data cn = alt.data cm ∧ alt.data cm = alt.data cp ∧
       alt.mark cn = alt.mark cm ∧ alt.mark cm = alt.mark cp) ∧
    (∀ l i j cl cp,
       l ∈ [n; m; p] → l !! i = Some cl → l !! j = Some cp →
       alt.mark cl = Some alt.line → alt.mark cp = Some alt.circle →
       (i < j)%nat).
Proof.
  eapply plot_altair_layers.
  - reflexivity.
  - discriminate.
Defined.

(** X14: in any collection, mixed ones too, the interaction follows the
    mark: a sub-chart drawn with circles carries the hover selection of the
    call and one pan and zoom selection, of a later name, and no other; a
    sub-chart drawn as a line carries none; and there is no third kind. *)
Theorem plot_altair_interaction_follows_mark (d : dict) (size : Z)
    (ctr : nat) (rows : pd.DataFrame) :
  append_all d [] = Ok rows → rows ≠ [] →
  ∃ n m p k,
    plot_altair d size ctr = Ok (figure (n, m, p), k) ∧
    ∀ c, c ∈ sub_charts (n, m, p) →
      (alt.mark c = Some alt.circle ∧
       hovers (nearest ctr) c ∧ pans_and_zooms c ∧
       ∃ z, alt.selection c = [nearest ctr; alt.pan_zoom z] ∧
            (alt.name (nearest ctr) < z ≤ k)%nat) ∨
      (alt.mark c = Some alt.line ∧ inert c).
Proof.
  intros Hrows Hne.
  destruct (plot_altair_ok d size ctr rows Hrows Hne)
    as (min_x & max_re & min_y & max_ni & _ & _ & _ & _ & Hrun).
  destruct (blocks rows min_x _ min_y _ size ctr)
    as [[[n m] p] k] eqn:Hb.
  exists n, m, p, k. split; [exact Hrun|]. clear Hrun.
  revert Hb. by_blocks; intros [= <- <- <- <-].
  all: intros c Hc; simpl in Hc; each_chart Hc.
  all: first
    [ right; split; [reflexivity|split; reflexivity]
    | left; split; [reflexivity|];
      split; [split; [apply list_elem_of_here|reflexivity]|];
      split; [eexists; apply list_elem_of_further, list_elem_of_here|];
      eexists; split; [reflexivity|simpl; lia] ].
Qed.

Lemma plot_altair_interaction_follows_mark_witness :
  ∃ n m p k,
    plot_altair
      [("data", {| ds.f := [1; 10];
                   ds.Z := [np.Complex 100 0; np.Complex 80 (-20)];
                   ds.fmt := Some "o" |});
       ("fit", {| ds.f := [1]; ds.Z := [np.Complex 99 0];
                  ds.fmt := Some "-" |})] 400 0%nat
    = Ok (figure (n, m, p), k) ∧
    ∀ c, c ∈ sub_charts (n, m, p) →
      (alt.mark c = Some alt.circle ∧
       hovers (nearest 0) c ∧ pans_and_zooms c ∧
       ∃ z, alt.selection c = [nearest 0; alt.pan_zoom z] ∧
            (alt.name (nearest 0) < z ≤ k)%nat) ∨
      (alt.mark c = Some alt.line ∧ inert c).
Proof.
  eapply plot_altair_interaction_follows_mark.
  - reflexivity.
  - discriminate.
Defined.

(** X15: what the panels draw along their axes: a Nyquist sub-chart draws each
    of its lines at (real part, negated imaginary part), and a Bode
    sub-chart draws it at its frequency, on a logarithmic scale. *)
Theorem plot_altair_axes_values (d : dict) (size : Z) (ctr : nat)
    (rows : pd.DataFrame) :
  append_all d [] = Ok rows → rows ≠ [] →
  ∃ n m p k,
    plot_altair d size ctr = Ok (figure (n, m, p), k) ∧
    (∀ c r, c ∈ n → r ∈ alt.data c →
       alt.plotted_x c r = Some (pd.z_real r) ∧
       alt.plotted_y c r = Some (- pd.z_imag r)) ∧
    (∀ c r, c ∈ m ++ p → r ∈ alt.data c →
       alt.plotted_x c r = Some (pd.f r) ∧
       (alt.x c ≫= alt.scale) ≫= alt.scale_type = Some "log").
Proof.
  intros Hrows Hne.
  destruct (plot_altair_ok d size ctr rows Hrows Hne)
    as (min_x & max_re & min_y & max_ni & _ & _ & _ & _ & Hrun).
  destruct (blocks rows min_x _ min_y _ size ctr)
    as [[[n m] p] k] eqn:Hb.
  exists n, m, p, k. split; [exact Hrun|]. clear Hrun.
  revert Hb. by_blocks; intros [= <- <- <- <-].
  all: split; intros c r Hc _; simpl in Hc; each_chart Hc;
    split; reflexivity.
Qed.

Lemma plot_altair_axes_values_witness :
  ∃ n m p k,
    plot_altair
      [("data", {| ds.f := [1; 10];
                   ds.Z := [np.Complex 100 0; np.Complex 80 (-20)];
                   ds.fmt := Some "o" |})] 400 0%nat
    = Ok (figure (n, m, p), k) ∧
    (∀ c r, c ∈ n → r ∈ alt.data c →
       alt.plotted_x c r = Some (pd.z_real r) ∧
       alt.plotted_y c r = Some (- pd.z_imag r)) ∧
    (∀ c r, c ∈ m ++ p → r ∈ alt.data c →
       alt.plotted_x c r = Some (pd.f r) ∧
       (alt.x c ≫= alt.scale) ≫= alt.scale_type = Some "log").
Proof.
  eapply plot_altair_axes_values.
  - reflexivity.
  - discriminate.
Defined.

Lemma drawn_neg_phase_bounds (r : pd.row) :
  (∀ v, vega.real_of (vega.eval r neg_phase) = Some v →
        - (PI / 2) <= v <= PI / 2) ∧
  (pd.z_real r = 0 → pd.z_imag r ≠ 0 →
   vega.real_of (vega.eval r neg_phase) = Some (PI / 2) ∨
   vega.real_of (vega.eval r neg_phase) = Some (- (PI / 2))) ∧
  (pd.z_real r = 0 → pd.z_imag r = 0 →
   vega.real_of (vega.eval r neg_phase) = None).
Proof.
  pose proof PI_RGT_0 as Hpi.
  destruct (Req_dec_T (pd.z_real r) 0) as [E|E].
  - rewrite (eval_neg_phase_axis r E).
    destruct (Rlt_dec 0 (pd.z_imag r)) as [Hp|Hp];
      [|destruct (Rlt_dec (pd.z_imag r) 0) as [Hn|Hn]]; simpl.
    + split; [intros v [= <-]; lra|]. split; [auto|]. intros _ H0. lra.
    + rewrite Ropp_involutive.
      split; [intros v [= <-]; lra|]. split; [auto|]. intros _ H0. lra.
    + split; [discriminate|]. split; [|reflexivity].
      intros _ Hnz. exfalso. apply Hnz. lra.
  - rewrite (drawn_neg_phase r E).
    split; [|split; intros; contradiction].
    intros v [= <-].
    pose proof (atan_bound (pd.z_imag r / pd.z_real r)). lra.
Qed.

(** X16: the phase that is drawn lies between -pi/2 and pi/2, whatever the
    quadrant of the sample.  The two bounds are reached: a sample on the
    imaginary axis, the origin apart, is drawn at one of them, its quotient
    imag/real being an infinity; a sample at the origin has no phase to
    draw. *)
Theorem plot_altair_phase_bounded (d : dict) (size : Z) (ctr : nat)
    (rows : pd.DataFrame) :
  append_all d [] = Ok rows → rows ≠ [] →
  ∃ n m p k,
    plot_altair d size ctr = Ok (figure (n, m, p), k) ∧
    ∀ c r, c ∈ p → r ∈ alt.data c →
      (∀ v, alt.plotted_y c r = Some v → - (PI / 2) <= v <= PI / 2) ∧
      (pd.z_real r = 0 → pd.z_imag r ≠ 0 →
       alt.plotted_y c r = Some (PI / 2) ∨
       alt.plotted_y c r = Some (- (PI / 2))) ∧
      (pd.z_real r = 0 → pd.z_imag r = 0 → alt.plotted_y c r = None).
Proof.
  intros Hrows Hne.
  destruct (plot_altair_ok d size ctr rows Hrows Hne)
    as (min_x & max_re & min_y & max_ni & _ & _ & _ & _ & Hrun).
  destruct (blocks rows min_x _ min_y _ size ctr)
    as [[[n m] p] k] eqn:Hb.
  exists n, m, p, k. split; [exact Hrun|]. clear Hrun.
  revert Hb. by_blocks; intros [= <- <- <- <-].
  all: intros c r Hc _; each_chart Hc; apply (drawn_neg_phase_bounds r).
Qed.

Lemma plot_altair_phase_bounded_witness :
  ∃ n m p k,
    plot_altair
      [("data", {| ds.f := [1; 10; 100];
                   ds.Z := [np.Complex (-100) 0; np.Complex 0 (-20);
                            np.Complex 0 0];
                   ds.fmt := Some "o" |})] 400 0%nat
    = Ok (figure (n, m, p), k) ∧
    ∀ c r, c ∈ p → r ∈ alt.data c →
      (∀ v, alt.plotted_y c r = Some v → - (PI / 2) <= v <= PI / 2) ∧
      (pd.z_real r = 0 → pd.z_imag r ≠ 0 →
       alt.plotted_y c r = Some (PI / 2) ∨
       alt.plotted_y c r = Some (- (PI / 2))) ∧
      (pd.z_real r = 0 → pd.z_imag r = 0 → alt.plotted_y c r = None).
Proof.
  eapply plot_altair_phase_bounded.
  - reflexivity.
  - discriminate.
Defined.

#[local] Instance recognised_dec (r : pd.row) : Decision (recognised r).
Proof. unfold recognised. apply _. Defined.

Lemma get_group_absent (g : string) (rows : pd.DataFrame) :
  g ∉ pd.unique_fmt rows → pd.get_group g rows = [].
Proof.
  intros Hno. destruct (pd.get_group g rows) as [|r l] eqn:E; [reflexivity|].
  exfalso. apply Hno. apply in_unique_fmt.
  assert (Hr : r ∈ pd.get_group g rows) by (rewrite E; apply list_elem_of_here).
  apply in_get_group in Hr as [Hf Hr]. eauto.
Qed.

Lemma groups_partition (rows : pd.DataFrame) :
  pd.get_group "-" rows ++ pd.get_group "o" rows ≡ₚ filter recognised rows.
Proof.
  unfold pd.get_group.
  induction rows as [|r rows IH]; [reflexivity|].
  rewrite !filter_cons.
  destruct (decide (pd.fmt r = "-")) as [El|El];
    destruct (decide (pd.fmt r = "o")) as [Eo|Eo];
    destruct (decide (recognised r)) as [Hr|Hr]; unfold recognised in Hr;
    try assumption; try congruence; try (exfalso; tauto).
  - simpl. constructor. exact IH.
  - rewrite <- Permutation_middle. constructor. exact IH.
Qed.

(** X17: every panel draws each line of a recognised tag once and no other
    line: the lines of its sub-charts, taken together, are the '-' lines of
    the table followed by its 'o' lines; when every tag is '-' or 'o',
    these are all the lines of the table. *)
Theorem plot_altair_draws_once (d : dict) (size : Z) (ctr : nat)
    (rows : pd.DataFrame) :
  append_all d [] = Ok rows → rows ≠ [] →
  ∃ n m p k,
    plot_altair d size ctr = Ok (figure (n, m, p), k) ∧
    ∀ l, l ∈ [n; m; p] →
      drawn_in l = pd.get_group "-" rows ++ pd.get_group "o" rows ∧
      drawn_in l ≡ₚ filter recognised rows ∧
      (Forall recognised rows → drawn_in l ≡ₚ rows).
Proof.
  intros Hrows Hne.
  destruct (plot_altair_ok d size ctr rows Hrows Hne)
    as (min_x & max_re & min_y & max_ni & _ & _ & _ & _ & Hrun).
  destruct (blocks rows min_x _ min_y _ size ctr)
    as [[[n m] p] k] eqn:Hb.
  exists n, m, p, k. split; [exact Hrun|]. clear Hrun.
  assert (Hall : ∀ l, drawn_in l
                      = pd.get_group "-" rows ++ pd.get_group "o" rows →
                 drawn_in l
                 = pd.get_group "-" rows ++ pd.get_group "o" rows ∧
                 drawn_in l ≡ₚ filter recognised rows ∧
                 (Forall recognised rows → drawn_in l ≡ₚ rows)).
  { intros l E. split; [exact E|]. rewrite E, groups_partition.
    split; [reflexivity|]. intros Hrec.
    assert (Ef : filter recognised rows = rows).
    { clear -Hrec. induction Hrec as [|r rows Hr _ IH]; [reflexivity|].
      rewrite filter_cons_True by exact Hr. rewrite IH. reflexivity. }
    rewrite Ef. reflexivity. }
  revert Hb. by_blocks; intros [= <- <- <- <-].
  all: intros l Hl; each_chart Hl; apply Hall; unfold drawn_in; simpl.
  all: repeat match goal with
              | H : ¬ _ ∈ pd.unique_fmt _ |- _ =>
                  rewrite (get_group_absent _ _ H); clear H
              end.
  all: rewrite ?app_nil_r; reflexivity.
Qed.

Lemma plot_altair_draws_once_witness :
  ∃ n m p k,
    plot_altair
      [("data", {| ds.f := [1; 10];
                   ds.Z := [np.Complex 100 0; np.Complex 80 (-20)];
                   ds.fmt := Some "o" |});
       ("fit", {| ds.f := [1]; ds.Z := [np.Complex 99 0];
                  ds.fmt := Some "-" |})] 400 0%nat
    = Ok (figure (n, m, p), k) ∧
    ∀ l, l ∈ [n; m; p] →
      drawn_in l
      = pd.get_group "-"
          [ {| pd.f := 1; pd.z_real := 100; pd.z_imag := 0;
               pd.kind := "data"; pd.fmt := "o" |};
            {| pd.f := 10; pd.z_real := 80; pd.z_imag := -20;
               pd.kind := "data"; pd.fmt := "o" |};
            {| pd.f := 1; pd.z_real := 99; pd.z_imag := 0;
               pd.kind := "fit"; pd.fmt := "-" |} ]
        ++ pd.get_group "o"
             [ {| pd.f := 1; pd.z_real := 100; pd.z_imag := 0;
                  pd.kind := "data"; pd.fmt := "o" |};
               {| pd.f := 10; pd.z_real := 80; pd.z_imag := -20;
                  pd.kind := "data"; pd.fmt := "o" |};
               {| pd.f := 1; pd.z_real := 99; pd.z_imag := 0;
                  pd.kind := "fit"; pd.fmt := "-" |} ] ∧
      drawn_in l
      ≡ₚ filter recognised
           [ {| pd.f := 1; pd.z_real := 100; pd.z_imag := 0;
                pd.kind := "data"; pd.fmt := "o" |};
             {| pd.f := 10; pd.z_real := 80; pd.z_imag := -20;
                pd.kind := "data"; pd.fmt := "o" |};
             {| pd.f := 1; pd.z_real := 99; pd.z_imag := 0;
                pd.kind := "fit"; pd.fmt := "-" |} ] ∧
      (Forall recognised
         [ {| pd.f := 1; pd.z_real := 100; pd.z_imag := 0;
              pd.kind := "data"; pd.fmt := "o" |};
           {| pd.f := 10; pd.z_real := 80; pd.z_imag := -20;
              pd.kind := "data"; pd.fmt := "o" |};
           {| pd.f := 1; pd.z_real := 99; pd.z_imag := 0;
              pd.kind := "fit"; pd.fmt := "-" |} ] →
       drawn_in l
       ≡ₚ [ {| pd.f := 1; pd.z_real := 100; pd.z_imag := 0;
               pd.kind := "data"; pd.fmt := "o" |};
            {| pd.f := 10; pd.z_real := 80; pd.z_imag := -20;
               pd.kind := "data"; pd.fmt := "o" |};
            {| pd.f := 1; pd.z_real := 99; pd.z_imag := 0;
               pd.kind := "fit"; pd.fmt := "-" |} ]).
Proof.
  eapply plot_altair_draws_once.
  - reflexivity.
  - discriminate.
Defined.

(** X18: the panel sizes: a Nyquist sub-chart is a square of side [size]; a Bode
    sub-chart is as wide, and the heights of the two stacked Bode panels
    add up to [size - 50], so that they are positive only for a size above
    50. *)
Theorem plot_altair_panel_sizes (d : dict) (size : Z) (ctr : nat)
    (rows : pd.DataFrame) :
  append_all d [] = Ok rows → rows ≠ [] →
  ∃ n m p k,
    plot_altair d size ctr = Ok (figure (n, m, p), k) ∧
    (∀ c, c ∈ n →
       alt.height c = Some (IZR size) ∧ alt.width c = Some (IZR size)) ∧
    (∀ c, c ∈ m ++ p →
       ∃ h, alt.height c = Some h ∧ alt.width c = Some (IZR size) ∧
            h + h = IZR (size - 50) ∧ (0 < h ↔ (50 < size)%Z)).
Proof.
  intros Hrows Hne.
  destruct (plot_altair_ok d size ctr rows Hrows Hne)
    as (min_x & max_re & min_y & max_ni & _ & _ & _ & _ & Hrun).
  destruct (blocks rows min_x _ min_y _ size ctr)
    as [[[n m] p] k] eqn:Hb.
  exists n, m, p, k. split; [exact Hrun|]. clear Hrun.
  assert (Hh : IZR size / 2 - 25 + (IZR size / 2 - 25) = IZR (size - 50) ∧
               (0 < IZR size / 2 - 25 ↔ (50 < size)%Z)).
  { rewrite minus_IZR. split; [lra|]. split.
    - intros H. apply lt_IZR. lra.
    - intros H. apply IZR_lt in H. lra. }
  revert Hb. by_blocks; intros [= <- <- <- <-].
  all: split; [intros c Hc; each_chart Hc; split; reflexivity|].
  all: intros c Hc; simpl in Hc; each_chart Hc;
    (eexists; split; [reflexivity|split; [reflexivity|exact Hh]]).
Qed.

Lemma plot_altair_panel_sizes_witness :
  ∃ n m p k,
    plot_altair
      [("data", {| ds.f := [1; 10];
                   ds.Z := [np.Complex 100 0; np.Complex 80 (-20)];
                   ds.fmt := Some "o" |})] 40 0%nat
    = Ok (figure (n, m, p), k) ∧
    (∀ c, c ∈ n →
       alt.height c = Some (IZR 40) ∧ alt.width c = Some (IZR 40)) ∧
    (∀ c, c ∈ m ++ p →
       ∃ h, alt.height c = Some h ∧ alt.width c = Some (IZR 40) ∧
            h + h = IZR (40 - 50) ∧ (0 < h ↔ (50 < 40)%Z)).
Proof.
  eapply plot_altair_panel_sizes.
  - reflexivity.
  - discriminate.
Defined.

(** ** Where the drawn lines come from *)

Lemma lookup_combine {A B : Type} (l : list A) (k : list B) (i : nat)
    (a : A) (b : B) :
  combine l k !! i = Some (a, b) ↔ l !! i = Some a ∧ k !! i = Some b.
Proof.
  revert k i. induction l as [|x l IH]; intros [|y k] [|i]; simpl;
    try (split; [discriminate|intros [? ?]; discriminate]).
  - split; [intros [= -> ->]; auto|intros [[= ->] [= ->]]; reflexivity].
  - apply IH.
Qed.

Lemma lookup_samples (k : string) (e : ds.dataset) (i : nat) (r : pd.row) :
  samples k e !! i = Some r ↔
  ∃ x z, ds.f e !! i = Some x ∧ ds.Z e !! i = Some z ∧
         r = {| pd.f := x; pd.z_real := np.re z; pd.z_imag := np.im z;
                pd.kind := k; pd.fmt := tag e |}.
Proof.
  unfold samples. rewrite list_lookup_fmap, fmap_Some. split.
  - intros ([x z] & Hc & ->). apply lookup_combine in Hc as [Hx Hz].
    exists x, z. auto.
  - intros (x & z & Hx & Hz & ->). exists (x, z).
    split; [apply lookup_combine; auto|reflexivity].
Qed.

Lemma in_table (d : dict) (r : pd.row) :
  r ∈ table d ↔ ∃ k e, (k, e) ∈ d ∧ r ∈ samples k e.
Proof.
  unfold table. rewrite list_elem_of_In, in_flat_map. split.
  - intros ([k e] & Hin & Hr). exists k, e.
    rewrite !list_elem_of_In. auto.
  - intros (k & e & Hin & Hr). exists (k, e).
    rewrite <- !list_elem_of_In. auto.
Qed.

(** X19: nothing is drawn that was not given: every line of every sub-chart is
    a sample of a dataset of the collection, with the label of that dataset
    as kind, the tag of that dataset, and the frequency and the impedance
    found at one and the same index of its two arrays. *)
Theorem plot_altair_draws_only_samples (d : dict) (size : Z) (ctr : nat)
    (rows : pd.DataFrame) :
  append_all d [] = Ok rows → rows ≠ [] →
  ∃ n m p ctr',
    plot_altair d size ctr = Ok (figure (n, m, p), ctr') ∧
    ∀ c r, c ∈ sub_charts (n, m, p) → r ∈ alt.data c →
      ∃ k e i,
        (k, e) ∈ d ∧ pd.kind r = k ∧ pd.fmt r = tag e ∧
        ds.f e !! i = Some (pd.f r) ∧
        ds.Z e !! i = Some (np.Complex (pd.z_real r) (pd.z_imag r)).
Proof.
  intros Hrows Hne.
  destruct (plot_altair_ok d size ctr rows Hrows Hne)
    as (min_x & max_re & min_y & max_ni & _ & _ & _ & _ & Hrun).
  destruct (blocks rows min_x _ min_y _ size ctr)
    as [[[n m] p] ctr'] eqn:Hb.
  exists n, m, p, ctr'. split; [exact Hrun|]. clear Hrun.
  assert (Hfrom : ∀ r, r ∈ rows →
            ∃ k e i,
              (k, e) ∈ d ∧ pd.kind r = k ∧ pd.fmt r = tag e ∧
              ds.f e !! i = Some (pd.f r) ∧
              ds.Z e !! i = Some (np.Complex (pd.z_real r) (pd.z_imag r))).
  { apply append_all_ok_inv in Hrows as [_ ->].
    intros r (k & e & Hin & Hr)%in_table.
    apply list_elem_of_lookup in Hr as (i & Hi).
    apply lookup_samples in Hi as (x & z & Hx & Hz & ->).
    exists k, e, i. simpl. destruct z as [zr zi]. auto. }
  revert Hb. by_blocks; intros [= <- <- <- <-].
  all: intros c r Hc Hr; simpl in Hc; each_chart Hc; simpl in Hr;
    apply in_get_group in Hr as [_ Hr]; apply Hfrom, Hr.
Qed.

Lemma plot_altair_draws_only_samples_witness :
  ∃ n m p ctr',
    plot_altair
      [("data", {| ds.f := [1; 10];
                   ds.Z := [np.Complex 100 0; np.Complex 80 (-20)];
                   ds.fmt := None |})] 400 0%nat
    = Ok (figure (n, m, p), ctr') ∧
    ∀ c r, c ∈ sub_charts (n, m, p) → r ∈ alt.data c →
      ∃ k e i,
        (k, e) ∈ [("data", {| ds.f := [1; 10];
                              ds.Z := [np.Complex 100 0; np.Complex 80 (-20)];
                              ds.fmt := None |})] ∧
        pd.kind r = k ∧ pd.fmt r = tag e ∧
        ds.f e !! i = Some (pd.f r) ∧
        ds.Z e !! i = Some (np.Complex (pd.z_real r) (pd.z_imag r)).
Proof.
  eapply plot_altair_draws_only_samples.
  - reflexivity.
  - discriminate.
Defined.

(** X20: the two renderers agree on the Nyquist points: for a dataset of the
    collection that has samples and a recognised tag, the i-th point of the
    line that [plot_nyquist] draws for its impedances is where the Nyquist
    panel of [plot_altair] draws its i-th sample. *)
Theorem renderers_agree (σ : store) (ax : handle) (a : Axes) (d : dict)
    (size : Z) (ctr : nat) (rows : pd.DataFrame) (k : string) (e : ds.dataset)
    (scale : R) (units fmt : string) (kwargs : list (string * string)) :
  σ !! ax = Some a →
  append_all d [] = Ok rows →
  (k, e) ∈ d → ds.Z e ≠ [] → tag e = "-" ∨ tag e = "o" →
  ∃ σ' a' l n m p ctr' c,
    plot_nyquist ax (ds.Z e) scale units fmt kwargs σ = Some (ax, σ') ∧
    σ' !! ax = Some a' ∧ lines a' = lines a ++ [l] ∧
    plot_altair d size ctr = Ok (figure (n, m, p), ctr') ∧ c ∈ n ∧
    length (points l) = length (samples k e) ∧
    ∀ i r, samples k e !! i = Some r →
      r ∈ alt.data c ∧
      ∃ pt, points l !! i = Some pt ∧
            alt.plotted_x c r = Some pt.1 ∧ alt.plotted_y c r = Some pt.2.
Proof.
  intros Hax Hrows Hin Hsome Htag.
  destruct (append_all_ok_inv d rows Hrows) as [Hall Etable].
  assert (He : aligned e).
  { rewrite Forall_forall in Hall. apply (Hall _ Hin). }
  assert (Hsub : ∀ r, r ∈ samples k e → r ∈ rows ∧ pd.fmt r = tag e).
  { intros r Hr. split.
    - rewrite Etable. apply in_table. eauto.
    - apply list_elem_of_lookup in Hr as (i & Hi).
      apply lookup_samples in Hi as (x & z & _ & _ & ->). reflexivity. }
  assert (Hpresent : tag e ∈ pd.unique_fmt rows).
  { destruct (samples k e) as [|r0 l0] eqn:Es.
    - apply (f_equal length) in Es. rewrite (length_samples k e He) in Es.
      destruct (ds.Z e); [congruence|discriminate].
    - destruct (Hsub r0) as [Hr Hf]; [apply list_elem_of_here|].
      apply in_unique_fmt. eauto. }
  assert (Hne : rows ≠ []).
  { apply in_unique_fmt in Hpresent as (r & Hr & _).
    intros ->. apply elem_of_nil in Hr. contradiction. }
  destruct (plot_altair_ok d size ctr rows Hrows Hne)
    as (min_x & max_re & min_y & max_ni & _ & _ & _ & _ & Hrun).
  destruct (blocks rows min_x _ min_y _ size ctr)
    as [[[n m] p] ctr'] eqn:Hb.
  assert (Hc : ∃ c, c ∈ n ∧ alt.data c = pd.get_group (tag e) rows ∧
            ∀ r, alt.plotted_x c r = Some (pd.z_real r) ∧
                 alt.plotted_y c r = Some (- pd.z_imag r)).
  { revert Hb. destruct Htag as [Et|Et]; rewrite Et in *;
      by_blocks; intros [= <- <- <- <-]; try contradiction.
    all: first
      [ eexists; split; [apply list_elem_of_here|];
        split; [reflexivity|intros r; split; reflexivity]
      | eexists; split; [apply list_elem_of_further, list_elem_of_here|];
        split; [reflexivity|intros r; split; reflexivity] ]. }
  destruct Hc as (c & Hcn & Hdata & Hplot).
  exists (<[ax := drawn (ds.Z e) scale units fmt kwargs a]> σ),
         (drawn (ds.Z e) scale units fmt kwargs a),
         {| xdata := np.real (ds.Z e); ydata := np.neg (np.imag (ds.Z e));
            line_fmt := fmt; line_props := kwargs |},
         n, m, p, ctr', c.
  split; [exact (plot_nyquist_run σ ax a Hax (ds.Z e) scale units fmt kwargs)|].
  split; [apply lookup_insert_eq|]. split; [reflexivity|].
  split; [exact Hrun|]. split; [exact Hcn|].
  unfold points. simpl. rewrite combine_real_neg_imag.
  split; [rewrite length_map, (length_samples k e He); reflexivity|].
  intros i r Hi. split.
  - rewrite Hdata. apply in_get_group.
    destruct (Hsub r) as [Hr Hf]; [|auto].
    apply list_elem_of_lookup. eauto.
  - apply lookup_samples in Hi as (x & z & _ & Hz & ->).
    exists (np.re z, - np.im z). split.
    + rewrite list_lookup_fmap, Hz. reflexivity.
    + apply Hplot.
Qed.

Lemma renderers_agree_witness :
  ∃ σ' a' l n m p ctr' c,
    plot_nyquist 0%nat [np.Complex 100 0; np.Complex 80 (-20)] 1 "Ohms" "o" []
                 {[ 0%nat := blank_axes ]} = Some (0%nat, σ') ∧
    σ' !! 0%nat = Some a' ∧ lines a' = lines blank_axes ++ [l] ∧
    plot_altair
      [("fit", {| ds.f := [1]; ds.Z := [np.Complex 99 0];
                  ds.fmt := Some "-" |});
       ("data", {| ds.f := [1; 10];
                   ds.Z := [np.Complex 100 0; np.Complex 80 (-20)];
                   ds.fmt := None |})] 400 0%nat
    = Ok (figure (n, m, p), ctr') ∧ c ∈ n ∧
    length (points l)
    = length (samples "data"
                {| ds.f := [1; 10];
                   ds.Z := [np.Complex 100 0; np.Complex 80 (-20)];
                   ds.fmt := None |}) ∧
    ∀ i r, samples "data"
             {| ds.f := [1; 10];
                ds.Z := [np.Complex 100 0; np.Complex 80 (-20)];
                ds.fmt := None |} !! i = Some r →
      r ∈ alt.data c ∧
      ∃ pt, points l !! i = Some pt ∧
            alt.plotted_x c r = Some pt.1 ∧ alt.plotted_y c r = Some pt.2.
Proof.
  eapply (renderers_agree {[ 0%nat := blank_axes ]} 0%nat blank_axes
            _ 400 0%nat _ "data"
            {| ds.f := [1; 10];
               ds.Z := [np.Complex 100 0; np.Complex 80 (-20)];
               ds.fmt := None |}).
  - apply lookup_singleton_eq.
  - reflexivity.
  - apply list_elem_of_further, list_elem_of_here.
  - discriminate.
  - right. reflexivity.
Defined.
